(** * The master bootstrap of weed/command/master.go

    A shallow embedding of [checkPeers], [toMasterOption], [startMaster] and
    [runMaster].  The file calls into the rest of the program (glog, util,
    weed_server, gorilla/mux, grpc, the Go runtime); each such call is an
    event of an interaction tree, answered by the environment.  [glog.Fatalf]
    ends the process and so has no answer; the closing [select {}] is silent
    divergence. *)

From Stdlib Require Import ZArith String Ascii List Bool Lia DecimalString.
From ITree Require Import ITree Axioms Interp.Traces Props.Leaf Props.Finite.
Import ListNotations.
Local Open Scope string_scope.
Local Open Scope Z_scope.

(** ** Go primitives used by the file *)

(** Go's [int] on a 64-bit platform: signed, two's complement, wrapping. *)
Definition int_min : Z := - 2 ^ 63.
Definition int_max : Z := 2 ^ 63 - 1.

Definition int_wrap (z : Z) : Z := (z + 2 ^ 63) mod 2 ^ 64 - 2 ^ 63.

Definition int_add (a b : Z) : Z := int_wrap (a + b).

(** [len] of a slice, as an [int]. *)
Definition len {A} (l : list A) : Z := Z.of_nat (length l).

Module strconv.
(** [strconv.Itoa]: the decimal text of an [int], with a leading minus sign
    for negative numbers and no leading zeros. *)
Definition Itoa (i : Z) : string := NilZero.string_of_int (Z.to_int i).
End strconv.

Module strings.
(** [strings.Split s sep] for a one-byte separator: the pieces of [s]
    between successive separators.  There is one more piece than there are
    separators, so the empty string splits into one empty piece. *)
Fixpoint Split (s : string) (sep : ascii) : list string :=
  match s with
  | EmptyString => [EmptyString]
  | String c rest =>
      if Ascii.eqb c sep then EmptyString :: Split rest sep
      else match Split rest sep with
           | [] => [String c EmptyString]
           | piece :: pieces => String c piece :: pieces
           end
  end.
End strings.

Definition comma : ascii := ","%char.

(** ** Objects handed out by the collaborators

    The bootstrap only passes these around; each is identified by a number. *)

Definition error : Type := string.

Inductive Router := mkRouter (id : nat).
Inductive Route := mkRoute (id : nat).
Inductive Listener := mkListener (id : nat).
Inductive Topology := mkTopology (id : nat).
Inductive MasterClient := mkMasterClient (id : nat).
Inductive RaftServer := mkRaftServer (id : nat).
Inductive GrpcServer := mkGrpcServer (id : nat).
Inductive Viper := mkViper (id : nat).
Inductive DialOption := mkDialOption (id : nat).
Inductive ServerOption := mkServerOption (id : nat).

(** The method value [raftServer.StatusHandler]. *)
Inductive HandlerFunc := StatusHandler (raftServer : RaftServer).

(** The fields of [weed_server.MasterServer] that the file reads. *)
Record MasterServer := mkMasterServer {
  ms_id : nat;
  Topo : Topology;
  MasterClient_ : MasterClient
}.

(** [http.Server{Handler: r}]. *)
Record HttpServer := mkHttpServer { Handler : Router }.

(** A [float64], carried as its IEEE-754 bit pattern: the file only copies it. *)
Definition float64 : Type := Z.

(** ** Options *)

Record MasterOptions := mkMasterOptions {
  port : Z;
  ip : string;
  ipBind : string;
  metaFolder : string;
  peers : string;
  volumeSizeLimitMB : Z;
  volumePreallocate : bool;
  pulseSeconds : Z;
  defaultReplication : string;
  garbageThreshold : float64;
  whiteList : string;
  disableHttp : bool;
  metricsAddress : string;
  metricsIntervalSec : Z;
  sequencerType : string;
  etcdUrls : string
}.

(** [weed_server.MasterOption], with the fields the composite literal of
    [toMasterOption] sets. *)
Record MasterOption := mkMasterOption {
  Port : Z;
  MetaFolder : string;
  VolumeSizeLimitMB : Z;
  VolumePreallocate : bool;
  PulseSeconds : Z;
  DefaultReplicaPlacement : string;
  GarbageThreshold : float64;
  WhiteList : list string;
  DisableHttp : bool;
  MetricsAddress : string;
  MetricsIntervalSec : Z
}.

(** The process-wide flag variables: [m], [masterCpuProfile],
    [masterMemProfile]. *)
Record Flags := mkFlags {
  m : MasterOptions;
  masterCpuProfile : string;
  masterMemProfile : string
}.

(** ** Events *)

(** An argument of a glog format call. *)
Inductive fmt_arg :=
| ArgString (s : string)
| ArgInt (i : Z)
| ArgError (e : error).

(** What a [go] statement starts. *)
Inductive task :=
| GrpcServe (s : GrpcServer) (l : Listener)
| KeepConnectedToMaster (mc : MasterClient)
| HttpServe (s : HttpServer) (l : Listener).

Inductive masterE : Type -> Type :=
| LoadConfiguration (configFileName : string) (required : bool) : masterE unit
| NumCPU : masterE Z
| GOMAXPROCS (n : Z) : masterE Z
| SetupProfiling (cpuProfile memProfile : string) : masterE unit
| TestFolderWritable (folder : string) : masterE (option error)
| Fatalf (format : string) (args : list fmt_arg) : masterE void
| Infof (level : Z) (format : string) (args : list fmt_arg) : masterE unit
| NewRouter : masterE Router
| NewMasterServer (r : Router) (option : MasterOption) (peers : list string)
    : masterE MasterServer
| NewListener (addr : string) (timeout : Z) : masterE (Listener * option error)
| ViperSub (key : string) : masterE Viper
| LoadClientTLS (config : Viper) (component : string) : masterE DialOption
| LoadServerTLS (config : Viper) (component : string) : masterE ServerOption
| NewRaftServer (grpcDialOption : DialOption) (peers : list string)
    (serverAddr dataDir : string) (topo : Topology) (pulseSeconds : Z)
    : masterE (option RaftServer)
| SetRaftServer (ms : MasterServer) (raftServer : RaftServer) : masterE unit
| HandleFunc (r : Router) (path : string) (f : HandlerFunc) : masterE Route
| Methods (route : Route) (methods : list string) : masterE Route
| NewGrpcServer (opt : ServerOption) : masterE GrpcServer
| RegisterSeaweedServer (s : GrpcServer) (srv : MasterServer) : masterE unit
| RegisterRaftServer (s : GrpcServer) (srv : RaftServer) : masterE unit
| ReflectionRegister (s : GrpcServer) : masterE unit
| Go (t : task) : masterE unit.

Notation "x <~ e ;; k" := (Vis e (fun x => k))
  (at level 62, e at next level, right associativity, only parsing).
Notation "e ;;; k" := (Vis e (fun _ => k))
  (at level 62, right associativity, only parsing).

(** [glog.Fatalf] logs and exits the process: nothing runs after it. *)
Definition fatalf {R} (format : string) (args : list fmt_arg) : itree masterE R :=
  Vis (Fatalf format args) (fun v : void => match v with end).

(** [t] returns [x] without any call. *)
Definition Returns {R} (t : itree masterE R) (x : R) : Prop :=
  observe t = RetF x.

(** [t] ends the process by [glog.Fatalf] before any other call. *)
Definition ExitsFatally {R} (t : itree masterE R) (format : string)
    (args : list fmt_arg) : Prop :=
  exists k, observe t = VisF (Fatalf format args) k.

(** ** checkPeers *)

(** [masterIp + ":" + strconv.Itoa(masterPort)]. *)
Definition masterAddressOf (masterIp : string) (masterPort : Z) : string :=
  masterIp ++ ":" ++ strconv.Itoa masterPort.

(** Lines 153-155: [cleanedPeers] stays nil for the empty string. *)
Definition splitPeers (peers : string) : list string :=
  if negb (peers =? "")%string then strings.Split peers comma else [].

(** Lines 157-163: the scan for the own address, leaving at the first match. *)
Fixpoint hasSelf (cleanedPeers : list string) (masterAddress : string) : bool :=
  match cleanedPeers with
  | [] => false
  | peer :: rest =>
      if (peer =? masterAddress)%string then true else hasSelf rest masterAddress
  end.

(** Lines 165-167: the own address is appended when the scan did not find it. *)
Definition withSelf (cleanedPeers : list string) (masterAddress : string)
    : list string :=
  if negb (hasSelf cleanedPeers masterAddress)
  then (cleanedPeers ++ [masterAddress])%list
  else cleanedPeers.

(** The peer list as it stands when line 168 tests its length. *)
Definition resolvedPeers (masterIp : string) (masterPort : Z) (peers : string)
    : list string :=
  withSelf (splitPeers peers) (masterAddressOf masterIp masterPort).

Definition checkPeers (masterIp : string) (masterPort : Z) (peers : string)
    : itree masterE (string * list string) :=
  let masterAddress := masterAddressOf masterIp masterPort in
  let cleanedPeers := splitPeers peers in
  let cleanedPeers := withSelf cleanedPeers masterAddress in
  if Z.rem (len cleanedPeers) 2 =? 0
  then fatalf "Only odd number of masters are supported!" []
  else Ret (masterAddress, cleanedPeers).

(** ** toMasterOption *)

Definition toMasterOption (m : MasterOptions) (whiteList : list string)
    : MasterOption :=
  {| Port := port m;
     MetaFolder := metaFolder m;
     VolumeSizeLimitMB := volumeSizeLimitMB m;
     VolumePreallocate := volumePreallocate m;
     PulseSeconds := pulseSeconds m;
     DefaultReplicaPlacement := defaultReplication m;
     GarbageThreshold := garbageThreshold m;
     WhiteList := whiteList;
     DisableHttp := disableHttp m;
     MetricsAddress := metricsAddress m;
     MetricsIntervalSec := metricsIntervalSec m |}.

(** Modelled from the spec: [util.VolumeSizeLimitGB] is declared outside this
    file; the spec gives the ceiling as 30,000 MB, which the source writes as
    [util.VolumeSizeLimitGB*1000]. *)
Definition VolumeSizeLimitGB : Z := 30.

(** Lines 95-98 of [runMaster]: the white list stays nil for the empty flag. *)
Definition masterWhiteListOf (whiteList : string) : list string :=
  if negb (whiteList =? "")%string then strings.Split whiteList comma else [].

(** Line 114. *)
Definition listeningAddressOf (masterOption : MasterOptions) : string :=
  ipBind masterOption ++ ":" ++ strconv.Itoa (port masterOption).

(** Line 129. *)
Definition grpcPortOf (masterOption : MasterOptions) : Z :=
  int_add (port masterOption) 10000.

(** The address of line 130. *)
Definition grpcAddressOf (masterOption : MasterOptions) : string :=
  ipBind masterOption ++ ":" ++ strconv.Itoa (grpcPortOf masterOption).

Arguments strconv.Itoa : simpl never.
Arguments strings.Split : simpl never.
Arguments int_add : simpl never.
Arguments grpcPortOf : simpl never.
Arguments listeningAddressOf : simpl never.
Arguments masterAddressOf : simpl never.
Arguments masterWhiteListOf : simpl never.

Section Bootstrap.

(** [util.VERSION], a constant declared outside this file; it only appears
    in two log lines. *)
Variable VERSION : string.

Definition startMaster (masterOption : MasterOptions)
    (masterWhiteList : list string) : itree masterE unit :=
  ITree.bind
    (checkPeers (ip masterOption) (port masterOption) (peers masterOption))
    (fun '(myMasterAddress, peers) =>
  r <~ NewRouter ;;
  ms <~ NewMasterServer r (toMasterOption masterOption masterWhiteList) peers ;;
  let listeningAddress := listeningAddressOf masterOption in
  Infof 0 "Start Seaweed Master %s at %s"
    [ArgString VERSION; ArgString listeningAddress] ;;;
  bound <~ NewListener listeningAddress 0 ;;
  let '(masterListener, e) := bound in
  match e with
  | Some e => fatalf "Master startup error: %v" [ArgError e]
  | None =>
  (* start raftServer *)
  grpcConfig <~ ViperSub "grpc" ;;
  clientTLS <~ LoadClientTLS grpcConfig "master" ;;
  raftServer <~ NewRaftServer clientTLS peers myMasterAddress
    (metaFolder masterOption) (Topo ms) (pulseSeconds masterOption) ;;
  match raftServer with
  | None =>
      fatalf "please verify %s is writable, see https://github.com/chrislusf/seaweedfs/issues/717"
        [ArgString (metaFolder masterOption)]
  | Some raftServer =>
  SetRaftServer ms raftServer ;;;
  route <~ HandleFunc r "/cluster/status" (StatusHandler raftServer) ;;
  Methods route ["GET"] ;;;
  (* starting grpc server *)
  let grpcPort := grpcPortOf masterOption in
  bound <~ NewListener (ipBind masterOption ++ ":" ++ strconv.Itoa grpcPort) 0 ;;
  let '(grpcL, err) := bound in
  match err with
  | Some err =>
      fatalf "master failed to listen on grpc port %d: %v"
        [ArgInt grpcPort; ArgError err]
  | None =>
  (* Create your protocol servers. *)
  grpcConfig <~ ViperSub "grpc" ;;
  serverTLS <~ LoadServerTLS grpcConfig "master" ;;
  grpcS <~ NewGrpcServer serverTLS ;;
  RegisterSeaweedServer grpcS ms ;;;
  RegisterRaftServer grpcS raftServer ;;;
  ReflectionRegister grpcS ;;;
  Infof 0 "Start Seaweed Master %s grpc server at %s:%d"
    [ArgString VERSION; ArgString (ipBind masterOption); ArgInt grpcPort] ;;;
  Go (GrpcServe grpcS grpcL) ;;;
  Go (KeepConnectedToMaster (MasterClient_ ms)) ;;;
  (* start http server *)
  let httpS := {| Handler := r |} in
  Go (HttpServe httpS masterListener) ;;;
  (* select {} *)
  ITree.spin
  end end end).

(** [runMaster(cmd, args)]: neither parameter is used by the body. *)
Definition runMaster (flags : Flags) : itree masterE bool :=
  let m := m flags in
  LoadConfiguration "security" false ;;;
  LoadConfiguration "master" false ;;;
  n <~ NumCPU ;;
  GOMAXPROCS n ;;;
  SetupProfiling (masterCpuProfile flags) (masterMemProfile flags) ;;;
  err <~ TestFolderWritable (metaFolder m) ;;
  match err with
  | Some err =>
      fatalf "Check Meta Folder (-mdir) Writable %s : %s"
        [ArgString (metaFolder m); ArgError err]
  | None =>
  let masterWhiteList := masterWhiteListOf (whiteList m) in
  if volumeSizeLimitMB m >? VolumeSizeLimitGB * 1000
  then fatalf "volumeSizeLimitMB should be smaller than 30000" []
  else
  ITree.bind (startMaster m masterWhiteList) (fun _ => Ret true)
  end.

End Bootstrap.

(** ** Observed behaviour

    A run is observed as a trace of the library: the calls made, in order,
    each with the answer it got.  [is_trace t tr] says that [tr] is what some
    run of [t] shows up to some moment, so a property proved for every trace
    holds at every moment of every run.  A trace that ends in [TEventEnd] has
    its last call unanswered: the call is still running, or it is
    [glog.Fatalf], which never answers. *)

(** One call as seen from outside: the event, and its answer once given. *)
Inductive step : Type :=
| Step : forall {X : Type} (e : masterE X) (answer : option X), step.

Fixpoint steps {R} (tr : @trace masterE R) : list step :=
  match tr with
  | TEnd => []
  | TRet _ => []
  | TEventEnd e => [Step e None]
  | TEventResponse e x rest => Step e (Some x) :: steps rest
  end.

(** Whenever a [Q] step occurs, the steps before it satisfy [F]. *)
Definition before (Q : step -> bool) (F : list step -> Prop) (l : list step)
    : Prop :=
  forall l1 q l2, l = (l1 ++ q :: l2)%list -> Q q = true -> F l1.

Fixpoint before_from (acc : list step) (Q : step -> bool)
    (F : list step -> Prop) (l : list step) : Prop :=
  match l with
  | [] => True
  | s :: rest =>
      (if Q s then F acc else True) /\ before_from (acc ++ [s])%list Q F rest
  end.

(** Whenever a [Q] step occurs, the steps after it satisfy [G]. *)
Definition followed_by (Q : step -> bool) (G : step -> list step -> Prop)
    (l : list step) : Prop :=
  forall l1 q l2, l = (l1 ++ q :: l2)%list -> Q q = true -> G q l2.

Fixpoint followed_from (Q : step -> bool) (G : step -> list step -> Prop)
    (l : list step) : Prop :=
  match l with
  | [] => True
  | s :: rest => (if Q s then G s rest else True) /\ followed_from Q G rest
  end.

(** Nothing more is observed, or only the call of [glog.Fatalf] with the given
    format, which ends the process. *)
Definition only_fatal (format : string) (l : list step) : Prop :=
  l = [] \/ exists args, l = [Step (Fatalf format args) None].

(** *** Kinds of steps *)

(** A call of [util.NewListener]: a bind is attempted. *)
Definition is_bind (s : step) : bool :=
  match s with Step (NewListener _ _) _ => true | _ => false end.

(** The addresses of all bind attempts, in order. *)
Fixpoint bind_addrs (l : list step) : list string :=
  match l with
  | [] => []
  | Step (NewListener addr _) _ :: rest => addr :: bind_addrs rest
  | _ :: rest => bind_addrs rest
  end.

(** The addresses bound so far: [util.NewListener] answered without error. *)
Fixpoint bound_addrs (l : list step) : list string :=
  match l with
  | [] => []
  | Step (NewListener addr _) (Some (_, None)) :: rest => addr :: bound_addrs rest
  | _ :: rest => bound_addrs rest
  end.

(** [util.TestFolderWritable] answered nil. *)
Definition folder_writable (s : step) : bool :=
  match s with Step (TestFolderWritable _) (Some None) => true | _ => false end.

(** [util.TestFolderWritable] answered an error. *)
Definition folder_unwritable (s : step) : bool :=
  match s with
  | Step (TestFolderWritable _) (Some (Some _)) => true
  | _ => false
  end.

Definition is_fatal_with (format : string) (s : step) : bool :=
  match s with Step (Fatalf f _) _ => (f =? format)%string | _ => false end.

(** The management service is being constructed. *)
Definition constructs_management (s : step) : bool :=
  match s with Step (NewMasterServer _ _ _) _ => true | _ => false end.

(** [weed_server.NewMasterServer] has returned the management service. *)
Definition management_constructed (s : step) : bool :=
  match s with Step (NewMasterServer _ _ _) (Some _) => true | _ => false end.

(** The consensus service is being constructed. *)
Definition constructs_raft (s : step) : bool :=
  match s with Step (NewRaftServer _ _ _ _ _ _) _ => true | _ => false end.

(** [weed_server.NewRaftServer] has returned a consensus service. *)
Definition raft_constructed (s : step) : bool :=
  match s with
  | Step (NewRaftServer _ _ _ _ _ _) (Some (Some _)) => true
  | _ => false
  end.

(** The consensus service is being wired into the management service. *)
Definition wires_raft (s : step) : bool :=
  match s with Step (SetRaftServer _ _) _ => true | _ => false end.

(** [ms.SetRaftServer] has returned. *)
Definition raft_wired (s : step) : bool :=
  match s with Step (SetRaftServer _ _) (Some _) => true | _ => false end.

(** The RPC server is being created. *)
Definition creates_rpc_server (s : step) : bool :=
  match s with Step (NewGrpcServer _) _ => true | _ => false end.

(** A service is being registered on the RPC server. *)
Definition registers (s : step) : bool :=
  match s with
  | Step (RegisterSeaweedServer _ _) _ => true
  | Step (RegisterRaftServer _ _) _ => true
  | Step (ReflectionRegister _) _ => true
  | _ => false
  end.

Definition seaweed_registered (s : step) : bool :=
  match s with Step (RegisterSeaweedServer _ _) (Some _) => true | _ => false end.

Definition raft_registered (s : step) : bool :=
  match s with Step (RegisterRaftServer _ _) (Some _) => true | _ => false end.

Definition reflection_registered (s : step) : bool :=
  match s with Step (ReflectionRegister _) (Some _) => true | _ => false end.

(** A [go] statement that starts a [Serve] call on a listener. *)
Definition serves (s : step) : bool :=
  match s with
  | Step (Go (GrpcServe _ _)) _ => true
  | Step (Go (HttpServe _ _)) _ => true
  | _ => false
  end.

(** The last [go] statement, line 146, has been executed. *)
Definition http_serve_started (s : step) : bool :=
  match s with Step (Go (HttpServe _ _)) (Some _) => true | _ => false end.

(** The three background tasks started so far. *)
Fixpoint started_tasks (l : list step) : list task :=
  match l with
  | [] => []
  | Step (Go t) (Some _) :: rest => t :: started_tasks rest
  | _ :: rest => started_tasks rest
  end.

(** A service object is constructed or attached: the management service or
    the consensus service is built, the consensus service is set on the
    management service, or either is registered on the RPC server. *)
Definition constructs_or_attaches (s : step) : bool :=
  match s with
  | Step (NewMasterServer _ _ _) _ => true
  | Step (NewRaftServer _ _ _ _ _ _) _ => true
  | Step (SetRaftServer _ _) _ => true
  | Step (RegisterSeaweedServer _ _) _ => true
  | Step (RegisterRaftServer _ _) _ => true
  | _ => false
  end.

(** The white list handed to [weed_server.NewMasterServer], if [s] is that
    call. *)
Definition received_whiteList (s : step) : option (list string) :=
  match s with
  | Step (NewMasterServer _ option _) _ => Some (WhiteList option)
  | _ => None
  end.

(** The calls of lines 85-91 of [runMaster] with their answers, followed by
    [rest]. *)
Definition upto_folder_check {R} (flags : Flags) (loaded1 loaded2 : unit)
    (cpus previous : Z) (profiled : unit) (err : option error)
    (rest : @trace masterE R) : @trace masterE R :=
  TEventResponse (LoadConfiguration "security" false) loaded1
  (TEventResponse (LoadConfiguration "master" false) loaded2
  (TEventResponse NumCPU cpus
  (TEventResponse (GOMAXPROCS cpus) previous
  (TEventResponse
     (SetupProfiling (masterCpuProfile flags) (masterMemProfile flags)) profiled
  (TEventResponse (TestFolderWritable (metaFolder (m flags))) err rest))))).

(** ** The claims as the specification words them, where the code differs *)

(** [checkPeers] returns a list of the stated size whatever the input. *)
Definition returns_counted_peers (masterIp : string) (masterPort : Z)
    (peers : string) : Prop :=
  let self := masterAddressOf masterIp masterPort in
  let candidates := splitPeers peers in
  (~ In self candidates ->
   exists ps, Returns (checkPeers masterIp masterPort peers) (self, ps) /\
     length ps = (length candidates + 1)%nat /\
     count_occ string_dec ps self = 1%nat) /\
  (In self candidates ->
   exists ps, Returns (checkPeers masterIp masterPort peers) (self, ps) /\
     length ps = length candidates).

(** Both listeners are bound before any service object is constructed or
    attached. *)
Definition listeners_bound_first (masterOption : MasterOptions)
    (l : list step) : Prop :=
  before constructs_or_attaches
    (fun l1 => In (listeningAddressOf masterOption) (bound_addrs l1) /\
               In (grpcAddressOf masterOption) (bound_addrs l1)) l.

(** ** Running a program against given answers *)

(** What each collaborator answers; [None] leaves the call unanswered. *)
Definition answers : Type := forall X, masterE X -> option X.

Fixpoint run {R} (fuel : nat) (h : answers) (t : itree masterE R)
    : @trace masterE R :=
  match fuel with
  | O => TEnd
  | S fuel =>
      match observe t with
      | RetF r => TRet r
      | TauF t' => run fuel h t'
      | VisF e k =>
          match h _ e with
          | Some x => TEventResponse e x (run fuel h (k x))
          | None => TEventEnd e
          end
      end
  end.

(** Everything succeeds. *)
Definition cooperative : answers := fun X e =>
  match e in masterE X return option X with
  | LoadConfiguration _ _ => Some tt
  | NumCPU => Some 8
  | GOMAXPROCS _ => Some 8
  | SetupProfiling _ _ => Some tt
  | TestFolderWritable _ => Some None
  | Fatalf _ _ => None
  | Infof _ _ _ => Some tt
  | NewRouter => Some (mkRouter 1)
  | NewMasterServer _ _ _ =>
      Some (mkMasterServer 1 (mkTopology 1) (mkMasterClient 1))
  | NewListener addr _ => Some (mkListener (String.length addr), None)
  | ViperSub _ => Some (mkViper 1)
  | LoadClientTLS _ _ => Some (mkDialOption 1)
  | LoadServerTLS _ _ => Some (mkServerOption 1)
  | NewRaftServer _ _ _ _ _ _ => Some (Some (mkRaftServer 1))
  | SetRaftServer _ _ => Some tt
  | HandleFunc _ _ _ => Some (mkRoute 1)
  | Methods route _ => Some route
  | NewGrpcServer _ => Some (mkGrpcServer 1)
  | RegisterSeaweedServer _ _ => Some tt
  | RegisterRaftServer _ _ => Some tt
  | ReflectionRegister _ => Some tt
  | Go _ => Some tt
  end.

(** As [cooperative], but the meta folder is not writable. *)
Definition readonly_folder : answers := fun X e =>
  match e in masterE X return option X with
  | TestFolderWritable _ => Some (Some "permission denied")
  | e => cooperative _ e
  end.

(** The flag defaults of [init], with [os.TempDir()] given. *)
Definition defaultOptions (tempDir : string) : MasterOptions :=
  {| port := 9333;
     ip := "localhost";
     ipBind := "0.0.0.0";
     metaFolder := tempDir;
     peers := "";
     volumeSizeLimitMB := 30 * 1000;
     volumePreallocate := false;
     pulseSeconds := 5;
     defaultReplication := "000";
     garbageThreshold := 0x3FD3333333333333;
     whiteList := "";
     disableHttp := false;
     metricsAddress := "";
     metricsIntervalSec := 15;
     sequencerType := "memory";
     etcdUrls := "" |}.

Definition defaultFlags : Flags :=
  {| m := defaultOptions "/tmp"; masterCpuProfile := ""; masterMemProfile := "" |}.

Definition set_volumeSizeLimitMB (limit : Z) (o : MasterOptions) : MasterOptions :=
  {| port := port o; ip := ip o; ipBind := ipBind o; metaFolder := metaFolder o;
     peers := peers o; volumeSizeLimitMB := limit;
     volumePreallocate := volumePreallocate o; pulseSeconds := pulseSeconds o;
     defaultReplication := defaultReplication o;
     garbageThreshold := garbageThreshold o; whiteList := whiteList o;
     disableHttp := disableHttp o; metricsAddress := metricsAddress o;
     metricsIntervalSec := metricsIntervalSec o;
     sequencerType := sequencerType o; etcdUrls := etcdUrls o |}.

Definition set_whiteList (list' : string) (o : MasterOptions) : MasterOptions :=
  {| port := port o; ip := ip o; ipBind := ipBind o; metaFolder := metaFolder o;
     peers := peers o; volumeSizeLimitMB := volumeSizeLimitMB o;
     volumePreallocate := volumePreallocate o; pulseSeconds := pulseSeconds o;
     defaultReplication := defaultReplication o;
     garbageThreshold := garbageThreshold o; whiteList := list';
     disableHttp := disableHttp o; metricsAddress := metricsAddress o;
     metricsIntervalSec := metricsIntervalSec o;
     sequencerType := sequencerType o; etcdUrls := etcdUrls o |}.

Definition with_options (o : MasterOptions) : Flags :=
  {| m := o; masterCpuProfile := ""; masterMemProfile := "" |}.

From Stdlib Require DecimalPos DecimalZ.

(** ** Further notions *)

(** [c] occurs in [s]. *)
Fixpoint contains (c : ascii) (s : string) : bool :=
  match s with
  | EmptyString => false
  | String a rest => Ascii.eqb a c || contains c rest
  end.

(** The number of occurrences of [c] in [s]. *)
Fixpoint count_char (c : ascii) (s : string) : nat :=
  match s with
  | EmptyString => O
  | String a rest => ((if Ascii.eqb a c then 1 else 0) + count_char c rest)%nat
  end.

(** The -peers flag that lists the given addresses. *)
Definition peersFlagOf (addresses : list string) : string :=
  String.concat "," addresses.

(** The characters [strconv.Itoa] can produce. *)
Definition decimal_chars : list ascii :=
  list_ascii_of_string "-0123456789".

(** At every step [q] of [l], with [l1] the steps before it and [l2] the
    steps after it, [H l1 q l2] holds. *)
Definition throughout (H : list step -> step -> list step -> Prop)
    (l : list step) : Prop :=
  forall l1 q l2, l = (l1 ++ q :: l2)%list -> H l1 q l2.

Fixpoint throughout_from (acc : list step)
    (H : list step -> step -> list step -> Prop) (l : list step) : Prop :=
  match l with
  | [] => True
  | s :: rest => H acc s rest /\ throughout_from (acc ++ [s])%list H rest
  end.

(** Nothing more is observed, or only the step [s]. *)
Definition at_most (s : step) (l : list step) : Prop :=
  l = [] \/ l = [s].

(** *** What the collaborators have handed out so far *)

Fixpoint routers (l : list step) : list Router :=
  match l with
  | [] => []
  | Step NewRouter (Some r) :: rest => r :: routers rest
  | _ :: rest => routers rest
  end.

Fixpoint management_servers (l : list step) : list MasterServer :=
  match l with
  | [] => []
  | Step (NewMasterServer _ _ _) (Some ms) :: rest =>
      ms :: management_servers rest
  | _ :: rest => management_servers rest
  end.

Fixpoint raft_servers (l : list step) : list RaftServer :=
  match l with
  | [] => []
  | Step (NewRaftServer _ _ _ _ _ _) (Some (Some raftServer)) :: rest =>
      raftServer :: raft_servers rest
  | _ :: rest => raft_servers rest
  end.

Fixpoint grpc_servers (l : list step) : list GrpcServer :=
  match l with
  | [] => []
  | Step (NewGrpcServer _) (Some s) :: rest => s :: grpc_servers rest
  | _ :: rest => grpc_servers rest
  end.

Fixpoint routes (l : list step) : list Route :=
  match l with
  | [] => []
  | Step (HandleFunc _ _ _) (Some route) :: rest => route :: routes rest
  | _ :: rest => routes rest
  end.

(** The listeners bound so far, each with the address it was bound at. *)
Fixpoint bound_listeners (l : list step) : list (string * Listener) :=
  match l with
  | [] => []
  | Step (NewListener addr _) (Some (listener, None)) :: rest =>
      (addr, listener) :: bound_listeners rest
  | _ :: rest => bound_listeners rest
  end.

(** The folders that [util.TestFolderWritable] has found writable. *)
Fixpoint writable_folders (l : list step) : list string :=
  match l with
  | [] => []
  | Step (TestFolderWritable folder) (Some None) :: rest =>
      folder :: writable_folders rest
  | _ :: rest => writable_folders rest
  end.

(** *** What each call of startMaster is given *)

(** The management service and the consensus service are built on the
    resolved peer list; the consensus service also gets the own address, the
    meta folder, the pulse and the topology of the management service. *)
Definition peers_flow (masterOption : MasterOptions)
    (masterWhiteList : list string) (l1 : list step) (q : step) : Prop :=
  let self := masterAddressOf (ip masterOption) (port masterOption) in
  let resolved :=
    resolvedPeers (ip masterOption) (port masterOption) (peers masterOption) in
  match q with
  | Step (NewMasterServer r option ps) _ =>
      routers l1 = [r] /\
      option = toMasterOption masterOption masterWhiteList /\
      ps = resolved /\ Nat.Odd (length ps) /\ In self ps
  | Step (NewRaftServer _ ps serverAddr dataDir topo pulse) _ =>
      ps = resolved /\ serverAddr = self /\
      dataDir = metaFolder masterOption /\
      pulse = pulseSeconds masterOption /\
      map Topo (management_servers l1) = [topo]
  | _ => True
  end.

(** The objects that are wired together are the ones constructed before. *)
Definition wiring (l1 : list step) (q : step) : Prop :=
  match q with
  | Step (SetRaftServer ms raftServer) _ =>
      management_servers l1 = [ms] /\ raft_servers l1 = [raftServer]
  | Step (HandleFunc r path f) _ =>
      routers l1 = [r] /\ path = "/cluster/status" /\
      map StatusHandler (raft_servers l1) = [f]
  | Step (Methods route methods) _ =>
      routes l1 = [route] /\ methods = ["GET"]
  | Step (RegisterSeaweedServer s ms) _ =>
      grpc_servers l1 = [s] /\ management_servers l1 = [ms]
  | Step (RegisterRaftServer s raftServer) _ =>
      grpc_servers l1 = [s] /\ raft_servers l1 = [raftServer]
  | Step (ReflectionRegister s) _ => grpc_servers l1 = [s]
  | _ => True
  end.

(** Each task is started on the objects made for it. *)
Definition serving (masterOption : MasterOptions) (l1 : list step) (q : step)
    : Prop :=
  match q with
  | Step (Go (GrpcServe s l)) _ =>
      grpc_servers l1 = [s] /\
      exists masterListener,
        bound_listeners l1
        = [(listeningAddressOf masterOption, masterListener);
           (grpcAddressOf masterOption, l)]
  | Step (Go (KeepConnectedToMaster client)) _ =>
      map MasterClient_ (management_servers l1) = [client]
  | Step (Go (HttpServe s l)) _ =>
      routers l1 = [Handler s] /\
      exists grpcL,
        bound_listeners l1
        = [(listeningAddressOf masterOption, l);
           (grpcAddressOf masterOption, grpcL)]
  | _ => True
  end.

(** *** Failures of the collaborators of startMaster *)

(** The management listener cannot be bound. *)
Definition management_bind_failure (l1 : list step) (q : step) (l2 : list step)
    : Prop :=
  match q with
  | Step (NewListener _ _) (Some (_, Some e)) =>
      bound_addrs l1 = [] ->
      at_most (Step (Fatalf "Master startup error: %v" [ArgError e]) None) l2
  | _ => True
  end.

(** [weed_server.NewRaftServer] returns nil. *)
Definition raft_failure (masterOption : MasterOptions) (q : step)
    (l2 : list step) : Prop :=
  match q with
  | Step (NewRaftServer _ _ _ _ _ _) (Some None) =>
      at_most
        (Step
           (Fatalf "please verify %s is writable, see https://github.com/chrislusf/seaweedfs/issues/717"
              [ArgString (metaFolder masterOption)]) None) l2
  | _ => True
  end.

(** The RPC listener cannot be bound. *)
Definition rpc_bind_failure (masterOption : MasterOptions) (l1 : list step)
    (q : step) (l2 : list step) : Prop :=
  match q with
  | Step (NewListener _ _) (Some (_, Some err)) =>
      bound_addrs l1 = [listeningAddressOf masterOption] ->
      at_most
        (Step
           (Fatalf "master failed to listen on grpc port %d: %v"
              [ArgInt (grpcPortOf masterOption); ArgError err]) None) l2
  | _ => True
  end.

(** *** runMaster *)

(** The folder handed to the services is the one that was checked. *)
Definition folder_flow (flags : Flags) (l1 : list step) (q : step) : Prop :=
  match q with
  | Step (TestFolderWritable folder) _ => folder = metaFolder (m flags)
  | Step (NewMasterServer _ option _) _ =>
      writable_folders l1 = [MetaFolder option]
  | Step (NewRaftServer _ _ _ dataDir _ _) _ => writable_folders l1 = [dataDir]
  | _ => True
  end.

(** The calls before the folder check: both configuration files are loaded
    as optional, the thread limit is the reported number of CPUs, and the
    profiles are the two profile flags. *)
Definition setup_flow (flags : Flags) (l1 : list step) (q : step) : Prop :=
  match q with
  | Step (LoadConfiguration name required) _ =>
      required = false /\
      (name = "security" /\ l1 = [] \/
       name = "master" /\ length l1 = 1%nat)
  | Step (GOMAXPROCS n) _ => exists before, l1 = (before ++ [Step NumCPU (Some n)])%list
  | Step (SetupProfiling cpuProfile memProfile) _ =>
      cpuProfile = masterCpuProfile flags /\
      memProfile = masterMemProfile flags
  | Step (TestFolderWritable _) _ => length l1 = 5%nat
  | _ => True
  end.


Definition with_peers (ip' peers' : string) (o : MasterOptions)
    : MasterOptions :=
  {| port := port o; ip := ip'; ipBind := ipBind o; metaFolder := metaFolder o;
     peers := peers'; volumeSizeLimitMB := volumeSizeLimitMB o;
     volumePreallocate := volumePreallocate o; pulseSeconds := pulseSeconds o;
     defaultReplication := defaultReplication o;
     garbageThreshold := garbageThreshold o; whiteList := whiteList o;
     disableHttp := disableHttp o; metricsAddress := metricsAddress o;
     metricsIntervalSec := metricsIntervalSec o;
     sequencerType := sequencerType o; etcdUrls := etcdUrls o |}.

(** *** Environments *)

(** As [cooperative], but the given address cannot be bound. *)
Definition address_in_use (taken : string) : answers := fun X e =>
  match e in masterE X return option X with
  | NewListener addr _ =>
      if (addr =? taken)%string
      then Some (mkListener 0, Some "address already in use")
      else cooperative _ (NewListener addr 0)
  | e => cooperative _ e
  end.

(** As [cooperative], but the consensus service cannot be built. *)
Definition raft_unavailable : answers := fun X e =>
  match e in masterE X return option X with
  | NewRaftServer _ _ _ _ _ _ => Some None
  | e => cooperative _ e
  end.

(** The call is [glog.Fatalf]. *)
Definition is_fatal_event {X} (e : masterE X) : bool :=
  match e with Fatalf _ _ => true | _ => false end.

(** Every call other than [glog.Fatalf] is answered. *)
Definition responsive (h : answers) : Prop :=
  forall X (e : masterE X), is_fatal_event e = false -> h X e <> None.

(** The last step is the call of [glog.Fatalf]. *)
Fixpoint ends_fatally (l : list step) : bool :=
  match l with
  | [] => false
  | [Step (Fatalf _ _) None] => true
  | _ :: rest => ends_fatally rest
  end.

(** *** What each fatal message of the bootstrap stands for *)

Definition fatal_cause (flags : Flags) (l1 : list step) (q : step) : Prop :=
  let masterOption := m flags in
  match q with
  | Step (Fatalf format _) _ =>
      (format = "Check Meta Folder (-mdir) Writable %s : %s" /\
       existsb folder_unwritable l1 = true /\
       writable_folders l1 = []) \/
      (format = "volumeSizeLimitMB should be smaller than 30000" /\
       volumeSizeLimitMB masterOption > 30000 /\
       writable_folders l1 = [metaFolder masterOption]) \/
      (format = "Only odd number of masters are supported!" /\
       Nat.Even
         (length
            (resolvedPeers (ip masterOption) (port masterOption)
               (peers masterOption))) /\
       volumeSizeLimitMB masterOption <= 30000 /\
       writable_folders l1 = [metaFolder masterOption]) \/
      (format = "Master startup error: %v" /\
       bind_addrs l1 = [listeningAddressOf masterOption] /\
       bound_addrs l1 = []) \/
      (format
       = "please verify %s is writable, see https://github.com/chrislusf/seaweedfs/issues/717" /\
       existsb constructs_raft l1 = true /\ raft_servers l1 = [] /\
       bound_addrs l1 = [listeningAddressOf masterOption]) \/
      (format = "master failed to listen on grpc port %d: %v" /\
       bind_addrs l1
       = [listeningAddressOf masterOption; grpcAddressOf masterOption] /\
       bound_addrs l1 = [listeningAddressOf masterOption])
  | _ => True
  end.

(** With [started] tasks started earlier, the run observed as [l] has either
    ended in [glog.Fatalf] with no task started at all, or started the three
    tasks without any fatal exit. *)
Definition settled (started : nat) (l : list step) : Prop :=
  (ends_fatally l = true /\ (started + length (started_tasks l))%nat = 0%nat) \/
  (ends_fatally l = false /\ (started + length (started_tasks l))%nat = 3%nat).

(** The call is a [go] statement. *)
Definition is_go {X} (e : masterE X) : bool :=
  match e with Go _ => true | _ => false end.

(** * Properties *)

(** ** checkPeers *)

Lemma hasSelf_In (l : list string) (a : string) :
  hasSelf l a = true <-> In a l.
Proof.
  induction l as [|p l IH]; simpl.
  - split; [discriminate | tauto].
  - destruct (String.eqb_spec p a) as [->|Hne].
    + split; auto.
    + rewrite IH. split; [auto | intros [H|H]; [contradiction | exact H]].
Qed.

Lemma hasSelf_not_In (l : list string) (a : string) :
  hasSelf l a = false <-> ~ In a l.
Proof.
  rewrite <- hasSelf_In. destruct (hasSelf l a); split; congruence.
Qed.

Lemma withSelf_absent (l : list string) (a : string) :
  ~ In a l -> withSelf l a = (l ++ [a])%list.
Proof.
  intros H. unfold withSelf. apply hasSelf_not_In in H. now rewrite H.
Qed.

Lemma withSelf_present (l : list string) (a : string) :
  In a l -> withSelf l a = l.
Proof.
  intros H. unfold withSelf. apply hasSelf_In in H. now rewrite H.
Qed.

Lemma count_occ_snoc_absent (l : list string) (a : string) :
  ~ In a l -> count_occ string_dec (l ++ [a])%list a = 1%nat.
Proof.
  intros H. rewrite count_occ_app.
  apply (count_occ_not_In string_dec) in H. rewrite H. simpl.
  destruct (string_dec a a); congruence.
Qed.

(** Line 168: [len(cleanedPeers)%2 == 0] tests the parity of the length. *)
Lemma len_rem_even {A} (l : list A) :
  (Z.rem (len l) 2 =? 0) = Nat.even (length l).
Proof.
  unfold len. rewrite Z.rem_mod_nonneg by lia.
  destruct (Nat.even (length l)) eqn:E.
  - apply Nat.even_spec in E. destruct E as [k ->].
    apply Z.eqb_eq. rewrite Nat2Z.inj_mul, Z.mul_comm. apply Z.mod_mul. lia.
  - apply Z.eqb_neq. intros H.
    assert (Nat.odd (length l) = true) as O
      by (rewrite <- Nat.negb_even, E; reflexivity).
    apply Nat.odd_spec in O. destruct O as [k Hk]. rewrite Hk in H.
    rewrite Nat2Z.inj_add, Nat2Z.inj_mul, Z.add_comm, Z.mul_comm in H.
    rewrite Z.mod_add in H by lia. discriminate.
Qed.

Lemma checkPeers_even (masterIp : string) (masterPort : Z) (peers : string) :
  Nat.even (length (resolvedPeers masterIp masterPort peers)) = true ->
  checkPeers masterIp masterPort peers
  = fatalf "Only odd number of masters are supported!" [].
Proof.
  intros E. unfold checkPeers. fold (resolvedPeers masterIp masterPort peers).
  now rewrite len_rem_even, E.
Qed.

Lemma checkPeers_odd (masterIp : string) (masterPort : Z) (peers : string) :
  Nat.even (length (resolvedPeers masterIp masterPort peers)) = false ->
  checkPeers masterIp masterPort peers
  = Ret (masterAddressOf masterIp masterPort,
         resolvedPeers masterIp masterPort peers).
Proof.
  intros E. unfold checkPeers. fold (resolvedPeers masterIp masterPort peers).
  now rewrite len_rem_even, E.
Qed.

Lemma fatalf_ExitsFatally {R} (format : string) (args : list fmt_arg) :
  ExitsFatally (@fatalf R format args) format args.
Proof. unfold ExitsFatally, fatalf. simpl. eauto. Qed.

Lemma fatalf_not_Returns {R} (format : string) (args : list fmt_arg) (x : R) :
  ~ Returns (fatalf format args) x.
Proof. unfold Returns, fatalf. simpl. discriminate. Qed.

Lemma odd_not_even (n : nat) : Nat.Odd n -> Nat.even n = false.
Proof.
  intros H. apply Nat.odd_spec in H. rewrite <- Nat.negb_odd, H. reflexivity.
Qed.

(** C1, as the code has it: the list that [checkPeers] resolves (the
    comma-split candidates, empty for the empty string, after the
    self-inclusion step) has one entry more than the candidates and holds the
    own address exactly once when the own address is not a candidate, and is
    the candidate list itself, duplicates kept, when it is one.  [checkPeers]
    returns that list, with the own address, when its length is odd, and ends
    the process when its length is even. *)
Theorem checkPeers_resolves_peers (masterIp : string) (masterPort : Z)
    (peers : string) :
  let self := masterAddressOf masterIp masterPort in
  let candidates := splitPeers peers in
  let resolved := resolvedPeers masterIp masterPort peers in
  (~ In self candidates ->
     length resolved = (length candidates + 1)%nat /\
     count_occ string_dec resolved self = 1%nat) /\
  (In self candidates ->
     length resolved = length candidates /\ resolved = candidates) /\
  (Nat.Odd (length resolved) ->
     Returns (checkPeers masterIp masterPort peers) (self, resolved)) /\
  (Nat.Even (length resolved) ->
     ExitsFatally (checkPeers masterIp masterPort peers)
       "Only odd number of masters are supported!" [] /\
     forall x, ~ Returns (checkPeers masterIp masterPort peers) x).
Proof.
  intros self candidates resolved.
  split; [|split; [|split]].
  - intros H. subst resolved. unfold resolvedPeers. fold self candidates.
    rewrite (withSelf_absent _ _ H), length_app.
    split; [reflexivity | now apply count_occ_snoc_absent].
  - intros H. subst resolved. unfold resolvedPeers. fold self candidates.
    now rewrite (withSelf_present _ _ H).
  - intros O. apply odd_not_even in O.
    unfold Returns. now rewrite (checkPeers_odd _ _ _ O).
  - intros E. apply Nat.even_spec in E. rewrite (checkPeers_even _ _ _ E).
    split; [apply fatalf_ExitsFatally | intros x; apply fatalf_not_Returns].
Qed.

Lemma checkPeers_resolves_peers_witness :
  (length (resolvedPeers "10.0.0.1" 9333 "10.0.0.2:9333,10.0.0.3:9333") = 3%nat /\
   count_occ string_dec
     (resolvedPeers "10.0.0.1" 9333 "10.0.0.2:9333,10.0.0.3:9333")
     "10.0.0.1:9333" = 1%nat) /\
  Returns (checkPeers "10.0.0.1" 9333 "10.0.0.2:9333,10.0.0.3:9333")
    ("10.0.0.1:9333", ["10.0.0.2:9333"; "10.0.0.3:9333"; "10.0.0.1:9333"]) /\
  length (resolvedPeers "10.0.0.1" 9333 "10.0.0.1:9333,10.0.0.2:9333") = 2%nat /\
  ExitsFatally (checkPeers "10.0.0.1" 9333 "10.0.0.1:9333,10.0.0.2:9333")
    "Only odd number of masters are supported!" [].
Proof.
  pose proof
    (checkPeers_resolves_peers "10.0.0.1" 9333 "10.0.0.2:9333,10.0.0.3:9333")
    as (A & _ & O & _).
  pose proof
    (checkPeers_resolves_peers "10.0.0.1" 9333 "10.0.0.1:9333,10.0.0.2:9333")
    as (_ & P & _ & E).
  split; [|split; [|split]].
  - apply A. vm_compute. intros [H|[H|[]]]; discriminate H.
  - apply O. exists 1%nat. reflexivity.
  - apply P. vm_compute. left. reflexivity.
  - apply E. exists 1%nat. reflexivity.
Defined.

(** C1, as worded, fails: with raw list "a:1" and own address "b:2" the own
    address is not a candidate, yet [checkPeers] returns no list at all. *)
Lemma returns_counted_peers_fails : ~ returns_counted_peers "b" 2 "a:1".
Proof.
  intros [H _].
  destruct H as (ps & R & _).
  - vm_compute. intros [H|[]]; discriminate H.
  - revert R. rewrite checkPeers_even by reflexivity. apply fatalf_not_Returns.
Qed.

(** C2: [checkPeers] ends the process, returning nothing, exactly when the
    resolved list (after the self-inclusion step) has even length, and returns
    normally when the length is odd; raw list "a:1" with own address "b:2" is
    rejected, the empty raw list with own address "b:2" is accepted. *)
Theorem checkPeers_parity (masterIp : string) (masterPort : Z) (peers : string) :
  (Nat.Even (length (resolvedPeers masterIp masterPort peers)) ->
     ExitsFatally (checkPeers masterIp masterPort peers)
       "Only odd number of masters are supported!" [] /\
     forall x, ~ Returns (checkPeers masterIp masterPort peers) x) /\
  (Nat.Odd (length (resolvedPeers masterIp masterPort peers)) ->
     Returns (checkPeers masterIp masterPort peers)
       (masterAddressOf masterIp masterPort,
        resolvedPeers masterIp masterPort peers)) /\
  (ExitsFatally (checkPeers "b" 2 "a:1")
     "Only odd number of masters are supported!" [] /\
   length (resolvedPeers "b" 2 "a:1") = 2%nat) /\
  Returns (checkPeers "b" 2 "") ("b:2", ["b:2"]).
Proof.
  split; [|split; [|split; [split|]]].
  - intros E. apply Nat.even_spec in E. rewrite (checkPeers_even _ _ _ E).
    split; [apply fatalf_ExitsFatally | intros x; apply fatalf_not_Returns].
  - intros O. apply odd_not_even in O.
    unfold Returns. now rewrite (checkPeers_odd _ _ _ O).
  - rewrite checkPeers_even by reflexivity. apply fatalf_ExitsFatally.
  - reflexivity.
  - reflexivity.
Qed.

Lemma checkPeers_parity_witness :
  ExitsFatally (checkPeers "10.0.0.1" 9333 "10.0.0.1:9333,10.0.0.2:9333")
    "Only odd number of masters are supported!" [] /\
  Returns
    (checkPeers "10.0.0.1" 9333 "10.0.0.1:9333,10.0.0.2:9333,10.0.0.3:9333")
    ("10.0.0.1:9333", ["10.0.0.1:9333"; "10.0.0.2:9333"; "10.0.0.3:9333"]).
Proof.
  pose proof (checkPeers_parity "10.0.0.1" 9333 "10.0.0.1:9333,10.0.0.2:9333")
    as (E & _).
  pose proof (checkPeers_parity "10.0.0.1" 9333
                "10.0.0.1:9333,10.0.0.2:9333,10.0.0.3:9333") as (_ & O & _).
  split.
  - apply E. exists 1%nat. reflexivity.
  - apply O. exists 1%nat. reflexivity.
Defined.

(** C3: with the empty raw peer list, whatever the own ip and port,
    [checkPeers] returns the one-element list holding the own address: the
    empty string gives no candidate, not one empty candidate. *)
Theorem checkPeers_empty_peers (masterIp : string) (masterPort : Z) :
  splitPeers "" = [] /\
  Returns (checkPeers masterIp masterPort "")
    (masterAddressOf masterIp masterPort, [masterAddressOf masterIp masterPort]).
Proof. split; reflexivity. Qed.

(** ** Traces of the bootstrap *)

Lemma before_from_sound (Q : step -> bool) (F : list step -> Prop)
    (l acc : list step) :
  before_from acc Q F l ->
  forall l1 q l2, l = (l1 ++ q :: l2)%list -> Q q = true -> F (acc ++ l1)%list.
Proof.
  revert acc. induction l as [|s l IH]; intros acc H l1 q l2 E Hq.
  - destruct l1; discriminate E.
  - destruct H as [Hs Hl]. destruct l1 as [|s1 l1]; simpl in E.
    + injection E as -> ->. rewrite Hq in Hs. now rewrite app_nil_r.
    + injection E as -> ->.
      specialize (IH _ Hl l1 q l2 eq_refl Hq).
      now rewrite <- app_assoc in IH.
Qed.

Lemma before_check (Q : step -> bool) (F : list step -> Prop) (l : list step) :
  before_from [] Q F l -> before Q F l.
Proof. intros H l1 q l2 E Hq. exact (before_from_sound Q F l [] H l1 q l2 E Hq). Qed.

Lemma followed_check (Q : step -> bool) (G : step -> list step -> Prop)
    (l : list step) :
  followed_from Q G l -> followed_by Q G l.
Proof.
  induction l as [|s l IH]; intros H l1 q l2 E Hq.
  - destruct l1; discriminate E.
  - destruct H as [Hs Hl]. destruct l1 as [|s1 l1]; simpl in E.
    + injection E as -> ->. now rewrite Hq in Hs.
    + injection E as -> ->. exact (IH Hl l1 q l2 eq_refl Hq).
Qed.

Lemma is_traceF_Vis_inv {X R} (e : masterE X) (k : X -> itree masterE R)
    (tr : @trace masterE R) :
  is_traceF (VisF e k) tr ->
  tr = TEnd \/ tr = TEventEnd e \/
  exists x tr', tr = TEventResponse e x tr' /\ is_trace (k x) tr'.
Proof.
  intros H. inversion H; subst; auto.
  - right; left. ddestruction. reflexivity.
  - right; right. ddestruction. eauto.
Qed.

Lemma is_traceF_Ret_inv {R} (r : R) (tr : @trace masterE R) :
  is_traceF (RetF r) tr -> tr = TEnd \/ tr = TRet r.
Proof. intros H; inversion H; auto. Qed.

(** [select {}], also when something is sequenced after it: no call, no
    return. *)
Lemma is_traceF_spin {R S} (k : R -> itree masterE S) ot (tr : @trace masterE S) :
  is_traceF ot tr -> ot = TauF (ITree.bind ITree.spin k) -> tr = TEnd.
Proof.
  induction 1; intros E; try discriminate; auto.
  injection E as ->. apply IHis_traceF. reflexivity.
Qed.

Lemma is_traceF_spin_alone {R} ot (tr : @trace masterE R) :
  is_traceF ot tr -> ot = TauF ITree.spin -> tr = TEnd.
Proof.
  induction 1; intros E; try discriminate; auto.
  injection E as ->. apply IHis_traceF. reflexivity.
Qed.

Lemma run_is_trace {R} (fuel : nat) (h : answers) (t : itree masterE R) :
  is_trace t (run fuel h t).
Proof.
  revert t. induction fuel as [|fuel IH]; intros t; unfold is_trace; simpl.
  - constructor.
  - destruct (observe t) as [r|t'|X e k].
    + constructor.
    + constructor. apply IH.
    + destruct (h X e); constructor. apply IH.
Qed.

(** Walks a trace of the bootstrap call by call; [fin] closes each case. *)
Ltac walk_trace H fin :=
  unfold is_trace in H; cbn in H;
  lazymatch type of H with
  | is_traceF (VisF (Fatalf _ _) _) _ =>
      apply is_traceF_Vis_inv in H;
      destruct H as [-> | [-> | ([] & _)]]; fin
  | is_traceF (VisF _ _) _ =>
      apply is_traceF_Vis_inv in H;
      destruct H as [-> | [-> | (? & ? & -> & H)]];
      [fin | fin | walk_trace H fin]
  | is_traceF (RetF _) _ =>
      apply is_traceF_Ret_inv in H; destruct H as [-> | ->]; fin
  | is_traceF (TauF (ITree.bind ITree.spin _)) _ =>
      apply (fun H' => is_traceF_spin _ _ _ H' eq_refl) in H; subst; fin
  | is_traceF (TauF (ITree.subst _ ITree.spin)) _ =>
      apply (fun H' => is_traceF_spin _ _ _ H' eq_refl) in H; subst; fin
  | is_traceF (TauF ITree.spin) _ =>
      apply (fun H' => is_traceF_spin_alone _ _ H' eq_refl) in H; subst; fin
  | is_traceF (observe (match ?x with _ => _ end)) _ =>
      first [ match goal with E : x = _ |- _ => rewrite E in H end
            | destruct x eqn:? ];
      walk_trace H fin
  | is_traceF (observe (ITree.subst _ (match ?x with _ => _ end))) _ =>
      destruct x eqn:?; walk_trace H fin
  | is_traceF (observe (ITree.bind (match ?x with _ => _ end) _)) _ =>
      destruct x eqn:?; walk_trace H fin
  | is_traceF
      (observe (ITree.bind (ITree.bind (match ?x with _ => _ end) _) _)) _ =>
      destruct x eqn:?; walk_trace H fin
  | is_traceF (observe (ITree.bind (startMaster _ _ _) _)) _ =>
      unfold startMaster, checkPeers in H; walk_trace H fin
  | is_traceF (observe (startMaster _ _ _)) _ =>
      unfold startMaster, checkPeers in H; walk_trace H fin
  end.

Ltac split_all :=
  repeat match goal with |- _ /\ _ => split end.

Ltac check_before :=
  apply before_check; cbn; repeat split; try reflexivity.

Ltac check_followed :=
  apply followed_check; cbn; repeat split;
  try solve [left; reflexivity | right; eexists; reflexivity | reflexivity].

(** ** runMaster: the checks before startMaster *)

Lemma folder_check_first (VERSION : string) (flags : Flags)
    (tr : @trace masterE bool) :
  is_trace (runMaster VERSION flags) tr ->
  before is_bind (fun l1 => existsb folder_writable l1 = true) (steps tr) /\
  (existsb folder_unwritable (steps tr) = true -> bind_addrs (steps tr) = []) /\
  followed_by folder_unwritable
    (fun _ => only_fatal "Check Meta Folder (-mdir) Writable %s : %s")
    (steps tr).
Proof.
  intros H.
  walk_trace H ltac:(
    split; [check_before
           | split; [cbn; intros; try discriminate; reflexivity
                    | check_followed]]).
Qed.

Lemma folder_check_fatal (VERSION : string) (flags : Flags)
    (loaded1 loaded2 : unit) (cpus previous : Z) (profiled : unit) (err : error) :
  is_trace (runMaster VERSION flags)
    (upto_folder_check flags loaded1 loaded2 cpus previous profiled (Some err)
       (TEventEnd
          (Fatalf "Check Meta Folder (-mdir) Writable %s : %s"
             [ArgString (metaFolder (m flags)); ArgError err]))).
Proof. unfold is_trace. cbn. repeat constructor. Qed.

(** C6: in every run of [runMaster], a listener bind is only attempted after
    [util.TestFolderWritable] has answered without error; when it answers an
    error no bind is attempted at all, and the only thing that follows is the
    call of [glog.Fatalf], which the process does make. *)
Theorem listeners_after_folder_check (VERSION : string) (flags : Flags) :
  (forall tr : @trace masterE bool,
     is_trace (runMaster VERSION flags) tr ->
     before is_bind (fun l1 => existsb folder_writable l1 = true) (steps tr) /\
     (existsb folder_unwritable (steps tr) = true ->
      bind_addrs (steps tr) = []) /\
     followed_by folder_unwritable
       (fun _ => only_fatal "Check Meta Folder (-mdir) Writable %s : %s")
       (steps tr)) /\
  (forall loaded1 loaded2 cpus previous profiled err,
     is_trace (runMaster VERSION flags)
       (upto_folder_check flags loaded1 loaded2 cpus previous profiled
          (Some err)
          (TEventEnd
             (Fatalf "Check Meta Folder (-mdir) Writable %s : %s"
                [ArgString (metaFolder (m flags)); ArgError err])))).
Proof.
  split.
  - intros tr H. exact (folder_check_first VERSION flags tr H).
  - apply folder_check_fatal.
Qed.

Lemma listeners_after_folder_check_witness :
  before is_bind (fun l1 => existsb folder_writable l1 = true)
    (steps (run 64 cooperative (runMaster "1.44" defaultFlags))) /\
  bind_addrs (steps (run 64 cooperative (runMaster "1.44" defaultFlags)))
  = ["0.0.0.0:9333"; "0.0.0.0:19333"] /\
  bind_addrs (steps (run 64 readonly_folder (runMaster "1.44" defaultFlags)))
  = [].
Proof.
  pose proof (proj1 (listeners_after_folder_check "1.44" defaultFlags)) as T.
  split; [|split].
  - apply T, run_is_trace.
  - reflexivity.
  - apply (T (run 64 readonly_folder (runMaster "1.44" defaultFlags))).
    + apply run_is_trace.
    + reflexivity.
Defined.

Lemma volume_limit_exceeded (flags : Flags) :
  volumeSizeLimitMB (m flags) > 30000 ->
  (volumeSizeLimitMB (m flags) >? VolumeSizeLimitGB * 1000) = true.
Proof. intros H. apply Z.gtb_lt. unfold VolumeSizeLimitGB. lia. Qed.

Lemma volume_limit_respected (flags : Flags) :
  volumeSizeLimitMB (m flags) <= 30000 ->
  (volumeSizeLimitMB (m flags) >? VolumeSizeLimitGB * 1000) = false.
Proof.
  intros H. rewrite Z.gtb_ltb. apply Z.ltb_ge. unfold VolumeSizeLimitGB. lia.
Qed.

(** C5: with [volumeSizeLimitMB] above 30000 no run of [runMaster] attempts a
    bind, and once the folder check has passed the only thing that follows is
    the call of [glog.Fatalf] about the limit, which the process does make;
    with the limit at or below 30000 that call never happens, and after the
    folder check the run goes on as [startMaster]. *)
Theorem volume_limit_check (VERSION : string) (flags : Flags) :
  (volumeSizeLimitMB (m flags) > 30000 ->
     (forall tr : @trace masterE bool,
        is_trace (runMaster VERSION flags) tr ->
        bind_addrs (steps tr) = [] /\
        followed_by folder_writable
          (fun _ => only_fatal "volumeSizeLimitMB should be smaller than 30000")
          (steps tr)) /\
     (forall loaded1 loaded2 cpus previous profiled,
        is_trace (runMaster VERSION flags)
          (upto_folder_check flags loaded1 loaded2 cpus previous profiled None
             (TEventEnd
                (Fatalf "volumeSizeLimitMB should be smaller than 30000" []))))) /\
  (volumeSizeLimitMB (m flags) <= 30000 ->
     (forall tr : @trace masterE bool,
        is_trace (runMaster VERSION flags) tr ->
        existsb (is_fatal_with "volumeSizeLimitMB should be smaller than 30000")
          (steps tr) = false) /\
     (forall loaded1 loaded2 cpus previous profiled tr',
        is_trace
          (ITree.bind
             (startMaster VERSION (m flags)
                (masterWhiteListOf (whiteList (m flags))))
             (fun _ => Ret true)) tr' ->
        is_trace (runMaster VERSION flags)
          (upto_folder_check flags loaded1 loaded2 cpus previous profiled None
             tr'))).
Proof.
  split; intros L.
  - pose proof (volume_limit_exceeded flags L) as E. cbn in E. split.
    + intros tr H.
      walk_trace H ltac:(split; [reflexivity | check_followed]).
    + intros. unfold is_trace. cbn. rewrite E. repeat constructor.
  - pose proof (volume_limit_respected flags L) as E. cbn in E. split.
    + intros tr H.
      walk_trace H ltac:(reflexivity).
    + intros loaded1 loaded2 cpus previous profiled tr' H.
      unfold is_trace. cbn. repeat constructor. rewrite E. exact H.
Qed.

Lemma volume_limit_check_witness :
  bind_addrs
    (steps (run 64 cooperative
              (runMaster "1.44"
                 (with_options
                    (set_volumeSizeLimitMB 30001 (defaultOptions "/tmp"))))))
  = [] /\
  run 64 cooperative
    (runMaster "1.44"
       (with_options (set_volumeSizeLimitMB 30001 (defaultOptions "/tmp"))))
  = upto_folder_check defaultFlags tt tt 8 8 tt None
      (TEventEnd (Fatalf "volumeSizeLimitMB should be smaller than 30000" [])) /\
  existsb (is_fatal_with "volumeSizeLimitMB should be smaller than 30000")
    (steps (run 64 cooperative (runMaster "1.44" defaultFlags))) = false.
Proof.
  split; [|split; [reflexivity|]].
  - apply (proj1 (volume_limit_check "1.44"
             (with_options
                (set_volumeSizeLimitMB 30001 (defaultOptions "/tmp"))))).
    + simpl. lia.
    + apply run_is_trace.
  - apply (proj2 (volume_limit_check "1.44" defaultFlags)).
    + simpl. lia.
    + apply run_is_trace.
Defined.

(** ** startMaster *)




(** C7, as the code has it: in every run of [startMaster] the management
    service is constructed while no listener is bound; the consensus service
    is constructed and set on the management service when the management
    listener, and only it, is bound; the RPC server is created, the services
    are registered on it and the serve calls are started when both listeners
    are bound. *)
Theorem listeners_and_services_order (VERSION : string)
    (masterOption : MasterOptions) (masterWhiteList : list string)
    (tr : @trace masterE unit) :
  is_trace (startMaster VERSION masterOption masterWhiteList) tr ->
  let management := listeningAddressOf masterOption in
  let rpc := grpcAddressOf masterOption in
  before constructs_management (fun l1 => bound_addrs l1 = []) (steps tr) /\
  before constructs_raft (fun l1 => bound_addrs l1 = [management]) (steps tr) /\
  before wires_raft (fun l1 => bound_addrs l1 = [management]) (steps tr) /\
  before creates_rpc_server
    (fun l1 => bound_addrs l1 = [management; rpc]) (steps tr) /\
  before registers (fun l1 => bound_addrs l1 = [management; rpc]) (steps tr) /\
  before serves (fun l1 => bound_addrs l1 = [management; rpc]) (steps tr).
Proof.
  intros H management rpc.
  walk_trace H ltac:(split_all; check_before).
Qed.

Lemma listeners_and_services_order_witness :
  before constructs_management (fun l1 => bound_addrs l1 = [])
    (steps (run 64 cooperative (startMaster "1.44" (defaultOptions "/tmp") []))) /\
  before serves (fun l1 => bound_addrs l1 = ["0.0.0.0:9333"; "0.0.0.0:19333"])
    (steps (run 64 cooperative (startMaster "1.44" (defaultOptions "/tmp") []))) /\
  existsb constructs_management
    (steps (run 64 cooperative (startMaster "1.44" (defaultOptions "/tmp") [])))
  = true /\
  existsb serves
    (steps (run 64 cooperative (startMaster "1.44" (defaultOptions "/tmp") [])))
  = true.
Proof.
  pose proof
    (listeners_and_services_order "1.44" (defaultOptions "/tmp") []
       (run 64 cooperative (startMaster "1.44" (defaultOptions "/tmp") []))
       (run_is_trace _ _ _)) as (A & _ & _ & _ & _ & B).
  split; [exact A | split; [exact B | split; reflexivity]].
Defined.

(** C7, as worded, fails: in the run where everything succeeds the management
    service is constructed right after the router, before any bind. *)
Lemma listeners_bound_first_fails :
  ~ (forall tr : @trace masterE unit,
       is_trace (startMaster "1.44" (defaultOptions "/tmp") []) tr ->
       listeners_bound_first (defaultOptions "/tmp") (steps tr)).
Proof.
  intros H.
  specialize (H (run 2 cooperative (startMaster "1.44" (defaultOptions "/tmp") []))
                (run_is_trace _ _ _)).
  destruct (H [Step NewRouter (Some (mkRouter 1))]
              (Step (NewMasterServer (mkRouter 1)
                       (toMasterOption (defaultOptions "/tmp") [])
                       ["localhost:9333"])
                    (Some (mkMasterServer 1 (mkTopology 1) (mkMasterClient 1))))
              [] eq_refl eq_refl) as [[] _].
Qed.

(** C8: in every run of [startMaster] the consensus service is constructed
    only after [weed_server.NewMasterServer] has returned the management
    service; it is set on the management service only after its own
    construction has returned; a service is registered on the RPC server only
    after [ms.SetRaftServer] has returned; and a serve call is started only
    after all three registrations have returned. *)
Theorem bootstrap_total_order (VERSION : string) (masterOption : MasterOptions)
    (masterWhiteList : list string) (tr : @trace masterE unit) :
  is_trace (startMaster VERSION masterOption masterWhiteList) tr ->
  before constructs_raft
    (fun l1 => existsb management_constructed l1 = true) (steps tr) /\
  before wires_raft (fun l1 => existsb raft_constructed l1 = true) (steps tr) /\
  before registers (fun l1 => existsb raft_wired l1 = true) (steps tr) /\
  before serves
    (fun l1 => existsb seaweed_registered l1 = true /\
               existsb raft_registered l1 = true /\
               existsb reflection_registered l1 = true) (steps tr).
Proof.
  intros H.
  walk_trace H ltac:(split_all; check_before).
Qed.

Lemma bootstrap_total_order_witness :
  before serves
    (fun l1 => existsb seaweed_registered l1 = true /\
               existsb raft_registered l1 = true /\
               existsb reflection_registered l1 = true)
    (steps (run 64 cooperative (startMaster "1.44" (defaultOptions "/tmp") []))) /\
  existsb serves
    (steps (run 64 cooperative (startMaster "1.44" (defaultOptions "/tmp") [])))
  = true.
Proof.
  split.
  - apply (bootstrap_total_order "1.44" (defaultOptions "/tmp") []
             (run 64 cooperative (startMaster "1.44" (defaultOptions "/tmp") []))
             (run_is_trace _ _ _)).
  - reflexivity.
Defined.

(** Walks the ways [startMaster] could reach a return. *)
Ltac walk_leaf H :=
  cbn in H;
  lazymatch type of H with
  | Leaf _ (Vis (Fatalf _ _) _) =>
      apply Leaf_Vis_inv in H; destruct H as [[] _]
  | Leaf _ (Vis _ _) =>
      apply Leaf_Vis_inv in H; destruct H as [? H]; walk_leaf H
  | Leaf _ ITree.spin => exact (spin_empty_Leaf _ _ _ H)
  | Leaf _ (fatalf _ _) => unfold fatalf in H; walk_leaf H
  | Leaf _ (match ?x with _ => _ end) => destruct x; walk_leaf H
  | Leaf _ (ITree.bind _ _) => idtac
  end.

Lemma startMaster_no_leaf (VERSION : string) (masterOption : MasterOptions)
    (masterWhiteList : list string) (u : unit) :
  ~ Leaf u (startMaster VERSION masterOption masterWhiteList).
Proof.
  intros H. unfold startMaster in H.
  apply Leaf_bind_inv in H. destruct H as ([myMasterAddress peers] & _ & H).
  walk_leaf H.
Qed.

(** C9: [startMaster] never returns, and neither does [runMaster] through it;
    in every run, once the last [go] statement has been executed (the two
    other tasks having been started before it) nothing more is observed: no
    call, no exit, no return. *)
Theorem startMaster_never_returns (VERSION : string)
    (masterOption : MasterOptions) (masterWhiteList : list string) :
  (forall u, ~ Leaf u (startMaster VERSION masterOption masterWhiteList)) /\
  (forall flags b, ~ Leaf b (runMaster VERSION flags)) /\
  (forall tr : @trace masterE unit,
     is_trace (startMaster VERSION masterOption masterWhiteList) tr ->
     trace_ret tr = None /\
     followed_by http_serve_started (fun _ l2 => l2 = []) (steps tr) /\
     before http_serve_started
       (fun l1 => exists grpcS grpcL client,
          started_tasks l1
          = [GrpcServe grpcS grpcL; KeepConnectedToMaster client])
       (steps tr)).
Proof.
  split; [|split].
  - intros u. apply startMaster_no_leaf.
  - intros flags b H. unfold runMaster in H.
    walk_leaf H.
    apply Leaf_bind_inv in H. destruct H as (u & H & _).
    exact (startMaster_no_leaf _ _ _ _ H).
  - intros tr H.
    walk_trace H ltac:(
      split; [reflexivity
             | split; [check_followed
                      | apply before_check; cbn; repeat split;
                        try solve [do 3 eexists; reflexivity]]]).
Qed.

Lemma startMaster_never_returns_witness :
  trace_ret (run 1000 cooperative (startMaster "1.44" (defaultOptions "/tmp") []))
  = None /\
  followed_by http_serve_started (fun _ l2 => l2 = [])
    (steps (run 1000 cooperative (startMaster "1.44" (defaultOptions "/tmp") []))) /\
  started_tasks
    (steps (run 1000 cooperative (startMaster "1.44" (defaultOptions "/tmp") [])))
  = [GrpcServe (mkGrpcServer 1) (mkListener 13);
     KeepConnectedToMaster (mkMasterClient 1);
     HttpServe {| Handler := mkRouter 1 |} (mkListener 12)].
Proof.
  pose proof
    (proj2 (proj2 (startMaster_never_returns "1.44" (defaultOptions "/tmp") []))
       (run 1000 cooperative (startMaster "1.44" (defaultOptions "/tmp") []))
       (run_is_trace _ _ _)) as (A & B & _).
  split; [exact A | split; [exact B | reflexivity]].
Defined.

(** ** The white list *)

Lemma masterWhiteListOf_empty : masterWhiteListOf "" = [].
Proof. reflexivity. Qed.

Lemma masterWhiteListOf_nonempty (whiteList : string) :
  whiteList <> "" ->
  masterWhiteListOf whiteList = strings.Split whiteList comma.
Proof.
  intros H. unfold masterWhiteListOf.
  destruct (String.eqb_spec whiteList ""); [contradiction | reflexivity].
Qed.

(** C10: in every run of [runMaster], the white list handed to
    [weed_server.NewMasterServer] is nil when the configured string is empty
    (not the one-element list holding the empty string, which is what
    splitting the empty string gives), and the comma-split entries of the
    configured string when it is not empty. *)
Theorem whiteList_received (VERSION : string) (flags : Flags)
    (tr : @trace masterE bool) :
  is_trace (runMaster VERSION flags) tr ->
  strings.Split "" comma = [""] /\
  Forall
    (fun s => forall received,
       received_whiteList s = Some received ->
       (whiteList (m flags) = "" -> received = [] /\ received <> [""]) /\
       (whiteList (m flags) <> "" ->
        received = strings.Split (whiteList (m flags)) comma))
    (steps tr).
Proof.
  intros H. split; [reflexivity|].
  assert (forall received,
            Some (masterWhiteListOf (whiteList (m flags))) = Some received ->
            (whiteList (m flags) = "" -> received = [] /\ received <> [""]) /\
            (whiteList (m flags) <> "" ->
             received = strings.Split (whiteList (m flags)) comma)) as W.
  { intros received [= <-]. split.
    - intros ->. split; [reflexivity | discriminate].
    - apply masterWhiteListOf_nonempty. }
  walk_trace H ltac:(
    cbn;
    repeat (apply Forall_cons;
            [cbn; first [exact W | intros ? ?; discriminate] | ]);
    apply Forall_nil).
Qed.

Lemma whiteList_received_witness :
  Forall
    (fun s => forall received,
       received_whiteList s = Some received ->
       (whiteList (m defaultFlags) = "" -> received = [] /\ received <> [""]) /\
       (whiteList (m defaultFlags) <> "" ->
        received = strings.Split (whiteList (m defaultFlags)) comma))
    (steps (run 64 cooperative (runMaster "1.44" defaultFlags))) /\
  map received_whiteList
    (filter constructs_management
       (steps (run 64 cooperative (runMaster "1.44" defaultFlags))))
  = [Some []] /\
  map received_whiteList
    (filter constructs_management
       (steps (run 64 cooperative
                 (runMaster "1.44"
                    (with_options
                       (set_whiteList "10.0.0.1,10.0.0.2"
                          (defaultOptions "/tmp")))))))
  = [Some ["10.0.0.1"; "10.0.0.2"]].
Proof.
  split; [|split; reflexivity].
  apply (whiteList_received "1.44" defaultFlags
           (run 64 cooperative (runMaster "1.44" defaultFlags))
           (run_is_trace _ _ _)).
Defined.

(** * Further properties *)

(** ** strings.Split with a one-byte separator *)

Lemma Split_cons (a : ascii) (s : string) (sep : ascii) :
  strings.Split (String a s) sep
  = if Ascii.eqb a sep then EmptyString :: strings.Split s sep
    else match strings.Split s sep with
         | [] => [String a EmptyString]
         | piece :: pieces => String a piece :: pieces
         end.
Proof. reflexivity. Qed.

Lemma Split_nonempty (s : string) (sep : ascii) : strings.Split s sep <> [].
Proof.
  destruct s as [|a s]; [discriminate|]. rewrite Split_cons.
  destruct (Ascii.eqb a sep); [discriminate|].
  destruct (strings.Split s sep); discriminate.
Qed.

Lemma Split_length (s : string) (sep : ascii) :
  length (strings.Split s sep) = S (count_char sep s).
Proof.
  induction s as [|a s IH]; [reflexivity|].
  rewrite Split_cons. simpl. destruct (Ascii.eqb a sep); simpl.
  - now rewrite IH.
  - destruct (strings.Split s sep); [discriminate IH | exact IH].
Qed.

Lemma Split_pieces_clean (s : string) (sep : ascii) (piece : string) :
  In piece (strings.Split s sep) -> contains sep piece = false.
Proof.
  revert piece. induction s as [|a s IH]; intros piece H.
  - destruct H as [<-|[]]. reflexivity.
  - rewrite Split_cons in H. destruct (Ascii.eqb a sep) eqn:E.
    + destruct H as [<-|H]; [reflexivity | now apply IH].
    + destruct (strings.Split s sep) as [|p ps].
      * destruct H as [<-|[]]. simpl. now rewrite E.
      * destruct H as [<-|H].
        -- simpl. rewrite E. apply IH. now left.
        -- apply IH. now right.
Qed.

Lemma concat_cons_cons (sep x y : string) (l : list string) :
  String.concat sep (x :: y :: l) = x ++ sep ++ String.concat sep (y :: l).
Proof. reflexivity. Qed.

Lemma concat_Split (s : string) (sep : ascii) :
  String.concat (String sep "") (strings.Split s sep) = s.
Proof.
  induction s as [|a s IH]; [reflexivity|].
  rewrite Split_cons.
  destruct (strings.Split s sep) as [|p ps] eqn:E.
  { now destruct (Split_nonempty s sep). }
  destruct (Ascii.eqb_spec a sep) as [->|Hne].
  - rewrite concat_cons_cons, IH. reflexivity.
  - destruct ps as [|p' ps].
    + simpl in *. now rewrite IH.
    + rewrite concat_cons_cons. rewrite concat_cons_cons in IH.
      simpl. simpl in IH. now rewrite IH.
Qed.

Lemma Split_clean (s : string) (sep : ascii) :
  contains sep s = false -> strings.Split s sep = [s].
Proof.
  induction s as [|a s IH]; intros H; [reflexivity|].
  simpl in H. apply orb_false_iff in H. destruct H as [E H].
  rewrite Split_cons, E, (IH H). reflexivity.
Qed.

Lemma Split_app_sep (s rest : string) (sep : ascii) :
  contains sep s = false ->
  strings.Split (s ++ String sep rest) sep = s :: strings.Split rest sep.
Proof.
  induction s as [|a s IH]; intros H.
  - simpl. now rewrite Split_cons, Ascii.eqb_refl.
  - simpl in H. apply orb_false_iff in H. destruct H as [E H].
    simpl. rewrite Split_cons, E, (IH H). reflexivity.
Qed.

Lemma Split_concat (l : list string) (sep : ascii) :
  l <> [] ->
  (forall piece, In piece l -> contains sep piece = false) ->
  strings.Split (String.concat (String sep "") l) sep = l.
Proof.
  induction l as [|x l IH]; intros Hne Hclean; [contradiction|].
  destruct l as [|y l].
  - simpl. apply Split_clean, Hclean. now left.
  - rewrite concat_cons_cons. simpl append.
    rewrite Split_app_sep by (apply Hclean; now left).
    f_equal. apply IH; [discriminate|].
    intros piece H. apply Hclean. now right.
Qed.

(** ** strconv.Itoa and the addresses built with it *)

Lemma uint_chars (c : ascii) (d : Decimal.uint) :
  contains c (NilEmpty.string_of_uint d) = true -> In c decimal_chars.
Proof.
  induction d; cbn [contains NilEmpty.string_of_uint]; intros H;
    try discriminate;
    apply orb_true_iff in H; destruct H as [H|H];
    try (apply Ascii.eqb_eq in H; subst c; simpl; auto 15);
    now apply IHd.
Qed.

Lemma Itoa_chars (c : ascii) (i : Z) :
  contains c (strconv.Itoa i) = true -> In c decimal_chars.
Proof.
  unfold strconv.Itoa. intros H.
  assert (forall d, contains c (NilZero.string_of_uint d) = true ->
                    In c decimal_chars) as U.
  { intros d. destruct d; try apply uint_chars.
    cbn [contains NilZero.string_of_uint]. intros E. apply orb_true_iff in E. destruct E as [E|E];
      [apply Ascii.eqb_eq in E; subst c; simpl; auto 15 | discriminate]. }
  destruct (Z.to_int i) as [d|d]; cbn [contains NilZero.string_of_int] in H.
  - exact (U d H).
  - apply orb_true_iff in H. destruct H as [H|H].
    + apply Ascii.eqb_eq in H. subst c. simpl. auto 15.
    + exact (U d H).
Qed.

Lemma Itoa_no_colon (i : Z) : contains ":" (strconv.Itoa i) = false.
Proof.
  destruct (contains ":" (strconv.Itoa i)) eqn:E; [|reflexivity].
  apply Itoa_chars in E. simpl in E.
  repeat (destruct E as [E|E]; [discriminate E|]). destruct E.
Qed.

Lemma Itoa_no_comma (i : Z) : contains "," (strconv.Itoa i) = false.
Proof.
  destruct (contains "," (strconv.Itoa i)) eqn:E; [|reflexivity].
  apply Itoa_chars in E. simpl in E.
  repeat (destruct E as [E|E]; [discriminate E|]). destruct E.
Qed.

Lemma Itoa_inj (a b : Z) : strconv.Itoa a = strconv.Itoa b -> a = b.
Proof.
  unfold strconv.Itoa. intros H.
  assert (forall z, Z.to_int z <> Decimal.Pos Decimal.Nil /\
                    Z.to_int z <> Decimal.Neg Decimal.Nil) as N.
  { intros [|p|p]; simpl; split; try discriminate; intros [= E];
      now apply DecimalPos.Unsigned.to_uint_nonnil in E. }
  apply DecimalZ.to_int_inj.
  assert (Some (Z.to_int a) = Some (Z.to_int b)) as E.
  { rewrite <- (NilZero.isi (Z.to_int a)) by apply N.
    rewrite <- (NilZero.isi (Z.to_int b)) by apply N.
    now rewrite H. }
  now injection E.
Qed.

(** A text without colon after the last colon determines both parts. *)
Lemma colon_split_inj (a b x y : string) :
  contains ":" x = false -> contains ":" y = false ->
  a ++ ":" ++ x = b ++ ":" ++ y -> a = b /\ x = y.
Proof.
  intros Hx Hy. revert b. induction a as [|c a IH]; intros [|c' b] E; simpl in E.
  - injection E as E. now split.
  - injection E as <- E. rewrite E in Hx.
    exfalso. clear -Hx. induction b; simpl in Hx; [discriminate|].
    apply orb_false_iff in Hx. tauto.
  - injection E as -> E. rewrite <- E in Hy.
    exfalso. clear -Hy. induction a; simpl in Hy; [discriminate|].
    apply orb_false_iff in Hy. tauto.
  - injection E as -> E. destruct (IH b E) as [-> ->]. now split.
Qed.

(** X1 : the own address determines the ip and the port it was built from:
    two nodes with a different ip or a different port never have the same
    address, whatever the ip text (colons included). *)
Theorem masterAddressOf_inj (ip1 ip2 : string) (port1 port2 : Z) :
  masterAddressOf ip1 port1 = masterAddressOf ip2 port2 <->
  ip1 = ip2 /\ port1 = port2.
Proof.
  unfold masterAddressOf. split.
  - intros E. apply colon_split_inj in E; try apply Itoa_no_colon.
    destruct E as [-> E]. split; [reflexivity | now apply Itoa_inj].
  - intros [-> ->]. reflexivity.
Qed.

Lemma masterAddressOf_inj_witness :
  masterAddressOf "10.0.0.1" 9333 <> masterAddressOf "10.0.0.1" 19333 /\
  masterAddressOf "10.0.0.1" 9333 <> masterAddressOf "10.0.0.2" 9333.
Proof.
  split; intros E.
  - apply (proj1 (masterAddressOf_inj "10.0.0.1" "10.0.0.1" 9333 19333)) in E.
    destruct E as [_ E]. discriminate E.
  - apply (proj1 (masterAddressOf_inj "10.0.0.1" "10.0.0.2" 9333 9333)) in E.
    destruct E as [E _]. discriminate E.
Defined.

Lemma int_add_range (a b : Z) : int_min <= int_add a b <= int_max.
Proof.
  unfold int_add, int_wrap, int_min, int_max.
  pose proof (Z.mod_pos_bound (a + b + 2 ^ 63) (2 ^ 64)). lia.
Qed.

Lemma int_add_congruent (a b : Z) : (int_add a b - (a + b)) mod 2 ^ 64 = 0.
Proof.
  unfold int_add, int_wrap.
  replace ((a + b + 2 ^ 63) mod 2 ^ 64 - 2 ^ 63 - (a + b))
    with ((a + b + 2 ^ 63) mod 2 ^ 64 - (a + b + 2 ^ 63)) by lia.
  rewrite Zminus_mod, Z.mod_mod, Z.sub_diag by lia. reflexivity.
Qed.

(** X2 : whatever the configured port, overflow included, the RPC port is an
    [int] that differs from the management port, and the address the RPC
    listener binds is never the address the management listener binds. *)
Theorem grpc_address_distinct (masterOption : MasterOptions) :
  int_min <= grpcPortOf masterOption <= int_max /\
  grpcPortOf masterOption <> port masterOption /\
  grpcAddressOf masterOption <> listeningAddressOf masterOption.
Proof.
  assert (grpcPortOf masterOption <> port masterOption) as N.
  { unfold grpcPortOf. intros E.
    pose proof (int_add_congruent (port masterOption) 10000) as C.
    rewrite E in C.
    replace (port masterOption - (port masterOption + 10000)) with (-10000)
      in C by lia.
    discriminate C. }
  split; [apply int_add_range | split; [exact N|]].
  unfold grpcAddressOf, listeningAddressOf. intros E.
  apply colon_split_inj in E; try apply Itoa_no_colon.
  destruct E as [_ E]. now apply Itoa_inj in E.
Qed.

(** ** More on checkPeers *)

Lemma checkPeers_Returns_inv (masterIp : string) (masterPort : Z)
    (peers : string) (r : string * list string) :
  Returns (checkPeers masterIp masterPort peers) r ->
  r = (masterAddressOf masterIp masterPort,
       resolvedPeers masterIp masterPort peers) /\
  Nat.even (length (resolvedPeers masterIp masterPort peers)) = false.
Proof.
  intros H.
  destruct (Nat.even (length (resolvedPeers masterIp masterPort peers))) eqn:E.
  - rewrite (checkPeers_even _ _ _ E) in H. now apply fatalf_not_Returns in H.
  - rewrite (checkPeers_odd _ _ _ E) in H. unfold Returns in H. simpl in H.
    injection H as <-. now split.
Qed.

Lemma withSelf_In (l : list string) (a : string) : In a (withSelf l a).
Proof.
  unfold withSelf. destruct (hasSelf l a) eqn:E; simpl.
  - now apply hasSelf_In.
  - apply in_or_app. right. now left.
Qed.

Lemma contains_app (c : ascii) (a b : string) :
  contains c (a ++ b) = contains c a || contains c b.
Proof.
  induction a as [|x a IH]; simpl; [reflexivity|].
  now rewrite IH, orb_assoc.
Qed.

Lemma masterAddressOf_no_comma (masterIp : string) (masterPort : Z) :
  contains "," (masterAddressOf masterIp masterPort) = contains "," masterIp.
Proof.
  unfold masterAddressOf. rewrite !contains_app, Itoa_no_comma. simpl.
  now rewrite orb_false_r.
Qed.

Lemma masterAddressOf_nonempty (masterIp : string) (masterPort : Z) :
  masterAddressOf masterIp masterPort <> "".
Proof.
  unfold masterAddressOf. destruct masterIp; discriminate.
Qed.

Lemma splitPeers_clean (peers piece : string) :
  In piece (splitPeers peers) -> contains "," piece = false.
Proof.
  unfold splitPeers. destruct (peers =? "")%string; simpl; [tauto|].
  apply Split_pieces_clean.
Qed.

Lemma splitPeers_length (peers : string) :
  peers <> "" -> length (splitPeers peers) = S (count_char comma peers).
Proof.
  intros H. unfold splitPeers.
  destruct (String.eqb_spec peers ""); [contradiction|]. apply Split_length.
Qed.

(** X3 : whenever [checkPeers] returns, the address it returns is the own
    address, the list it returns holds that address, has an odd number of
    entries, and every entry other than the own address is free of commas. *)
Theorem checkPeers_result_invariant (masterIp : string) (masterPort : Z)
    (peers address : string) (cleanedPeers : list string) :
  Returns (checkPeers masterIp masterPort peers) (address, cleanedPeers) ->
  address = masterAddressOf masterIp masterPort /\
  In address cleanedPeers /\
  Nat.Odd (length cleanedPeers) /\
  forall peer, In peer cleanedPeers ->
    peer = address \/ contains "," peer = false.
Proof.
  intros H. apply checkPeers_Returns_inv in H. destruct H as [[= -> ->] O].
  split; [reflexivity | split; [apply withSelf_In | split]].
  - apply Nat.odd_spec. now rewrite <- Nat.negb_even, O.
  - intros peer H. unfold resolvedPeers, withSelf in H.
    destruct (hasSelf _ _); simpl in H.
    + right. now apply splitPeers_clean with (peers := peers).
    + apply in_app_or in H. destruct H as [H|[<-|[]]].
      * right. now apply splitPeers_clean with (peers := peers).
      * now left.
Qed.

Lemma checkPeers_result_invariant_witness :
  In "10.0.0.3:9333" ["10.0.0.1:9333"; "10.0.0.2:9333"; "10.0.0.3:9333"] /\
  Nat.Odd 3.
Proof.
  pose proof (checkPeers_result_invariant "10.0.0.3" 9333
                "10.0.0.1:9333,10.0.0.2:9333" "10.0.0.3:9333"
                ["10.0.0.1:9333"; "10.0.0.2:9333"; "10.0.0.3:9333"] eq_refl)
    as (_ & I & O & _).
  split; [exact I | exact O].
Defined.

(** X4 : a non-empty -peers flag is accepted exactly when the parity of its
    comma count matches whether it lists the own address: an even number of
    commas (an odd number of entries) when the own address is listed, an odd
    number of commas when it is not. *)
Theorem peers_flag_accepted (masterIp : string) (masterPort : Z)
    (peers : string) :
  peers <> "" ->
  ((exists r, Returns (checkPeers masterIp masterPort peers) r) <->
   Nat.even (count_char comma peers)
   = hasSelf (splitPeers peers) (masterAddressOf masterIp masterPort)) /\
  ((exists format args,
      ExitsFatally (checkPeers masterIp masterPort peers) format args) <->
   Nat.even (count_char comma peers)
   <> hasSelf (splitPeers peers) (masterAddressOf masterIp masterPort)).
Proof.
  intros Hne.
  pose proof (splitPeers_length peers Hne) as L.
  assert (Nat.even (length (resolvedPeers masterIp masterPort peers))
          = negb (Bool.eqb (Nat.even (count_char comma peers))
                    (hasSelf (splitPeers peers)
                       (masterAddressOf masterIp masterPort)))) as P.
  { unfold resolvedPeers, withSelf.
    destruct (hasSelf _ _); simpl.
    - rewrite L, Nat.even_succ, <- Nat.negb_even.
      now destruct (Nat.even (count_char comma peers)).
    - rewrite length_app, L. cbn [length].
      replace (S (count_char comma peers) + 1)%nat
        with (S (S (count_char comma peers))) by lia.
      rewrite Nat.even_succ_succ.
      now destruct (Nat.even (count_char comma peers)). }
  destruct (Nat.even (length (resolvedPeers masterIp masterPort peers))) eqn:E.
  - assert (Nat.even (count_char comma peers)
            <> hasSelf (splitPeers peers)
                 (masterAddressOf masterIp masterPort)) as N.
    { intros N. rewrite N, Bool.eqb_reflx in P. discriminate P. }
    split; split.
    + intros [r R]. rewrite (checkPeers_even _ _ _ E) in R.
      now apply fatalf_not_Returns in R.
    + intros C. contradiction.
    + intros _. exact N.
    + intros _. rewrite (checkPeers_even _ _ _ E).
      do 2 eexists. apply fatalf_ExitsFatally.
  - assert (Nat.even (count_char comma peers)
            = hasSelf (splitPeers peers)
                (masterAddressOf masterIp masterPort)) as Y.
    { apply Bool.eqb_prop. symmetry in P. apply negb_false_iff in P.
      exact P. }
    split; split.
    + intros _. exact Y.
    + intros _. eexists. unfold Returns.
      rewrite (checkPeers_odd _ _ _ E). reflexivity.
    + intros (format & args & k & X).
      rewrite (checkPeers_odd _ _ _ E) in X. discriminate X.
    + intros C. contradiction.
Qed.

Lemma peers_flag_accepted_witness :
  (exists r, Returns (checkPeers "10.0.0.1" 9333 "10.0.0.2:9333,10.0.0.3:9333") r)
  /\
  (exists format args,
     ExitsFatally (checkPeers "10.0.0.1" 9333 "10.0.0.1:9333,10.0.0.2:9333")
       format args).
Proof.
  split.
  - apply (proj1 (peers_flag_accepted "10.0.0.1" 9333
                    "10.0.0.2:9333,10.0.0.3:9333" ltac:(discriminate))).
    reflexivity.
  - apply (proj2 (peers_flag_accepted "10.0.0.1" 9333
                    "10.0.0.1:9333,10.0.0.2:9333" ltac:(discriminate))).
    discriminate.
Defined.

Lemma concat_splitPeers (peers : string) :
  String.concat "," (splitPeers peers) = peers.
Proof.
  unfold splitPeers. destruct (String.eqb_spec peers "") as [->|Hne]; simpl.
  - reflexivity.
  - apply concat_Split.
Qed.

Lemma resolvedPeers_prefix (masterIp : string) (masterPort : Z) (peers : string) :
  firstn (length (splitPeers peers)) (resolvedPeers masterIp masterPort peers)
  = splitPeers peers.
Proof.
  unfold resolvedPeers, withSelf. destruct (hasSelf _ _); simpl.
  - apply firstn_all.
  - rewrite firstn_app, Nat.sub_diag, firstn_all. simpl. apply app_nil_r.
Qed.

(** X5 : the resolved peer list starts with the entries of the -peers flag
    exactly as written: joined with commas they give the flag back, so no
    entry is trimmed, dropped, reordered or merged with a duplicate.  The same
    holds for the entries of the -whiteList flag. *)
Theorem flag_entries_kept (masterIp : string) (masterPort : Z)
    (peers whiteList : string) :
  String.concat ","
    (firstn (length (splitPeers peers))
       (resolvedPeers masterIp masterPort peers)) = peers /\
  String.concat "," (masterWhiteListOf whiteList) = whiteList.
Proof.
  split.
  - rewrite resolvedPeers_prefix. apply concat_splitPeers.
  - unfold masterWhiteListOf.
    destruct (String.eqb_spec whiteList "") as [->|Hne]; simpl.
    + reflexivity.
    + apply concat_Split.
Qed.

Lemma concat_empty (sep : string) (l : list string) :
  sep <> "" -> String.concat sep l = "" -> l = [] \/ l = [""].
Proof.
  intros Hsep H. destruct l as [|x [|y l]]; [now left | right | exfalso].
  - simpl in H. now subst.
  - rewrite concat_cons_cons in H. destruct x; [|discriminate H].
    simpl in H. destruct sep; [contradiction | discriminate H].
Qed.

(** X6 : when the own ip holds no comma, the list [checkPeers] returns is a
    fixed point: given back as the -peers flag (its entries joined with
    commas) it is accepted and returned unchanged. *)
Theorem checkPeers_fixed_point (masterIp : string) (masterPort : Z)
    (peers address : string) (cleanedPeers : list string) :
  contains "," masterIp = false ->
  Returns (checkPeers masterIp masterPort peers) (address, cleanedPeers) ->
  Returns (checkPeers masterIp masterPort (peersFlagOf cleanedPeers))
    (address, cleanedPeers).
Proof.
  intros Hip H.
  pose proof (checkPeers_result_invariant _ _ _ _ _ H) as (-> & I & O & C).
  assert (forall peer, In peer cleanedPeers -> contains "," peer = false) as Cl.
  { intros peer Hp. destruct (C peer Hp) as [->|E]; [|exact E].
    now rewrite masterAddressOf_no_comma. }
  assert (peersFlagOf cleanedPeers <> "") as Hne.
  { intros E. apply concat_empty in E; [|discriminate].
    destruct E as [-> | ->]; [destruct I|].
    destruct I as [E|[]]. symmetry in E.
    now apply masterAddressOf_nonempty in E. }
  assert (splitPeers (peersFlagOf cleanedPeers) = cleanedPeers) as S.
  { unfold splitPeers.
    destruct (String.eqb_spec (peersFlagOf cleanedPeers) ""); [contradiction|].
    simpl. apply (Split_concat cleanedPeers comma); [|exact Cl].
    intros ->. destruct I. }
  assert (resolvedPeers masterIp masterPort (peersFlagOf cleanedPeers)
          = cleanedPeers) as R.
  { unfold resolvedPeers. rewrite S. now apply withSelf_present. }
  unfold Returns. rewrite checkPeers_odd; rewrite R.
  - reflexivity.
  - now apply odd_not_even.
Qed.

Lemma checkPeers_fixed_point_witness :
  Returns
    (checkPeers "10.0.0.3" 9333 "10.0.0.1:9333,10.0.0.2:9333,10.0.0.3:9333")
    ("10.0.0.3:9333", ["10.0.0.1:9333"; "10.0.0.2:9333"; "10.0.0.3:9333"]).
Proof.
  apply (checkPeers_fixed_point "10.0.0.3" 9333 "10.0.0.1:9333,10.0.0.2:9333"
           "10.0.0.3:9333" ["10.0.0.1:9333"; "10.0.0.2:9333"; "10.0.0.3:9333"]).
  - reflexivity.
  - reflexivity.
Defined.

(** ** More on the runs of startMaster *)

Lemma throughout_from_sound (H : list step -> step -> list step -> Prop)
    (l acc : list step) :
  throughout_from acc H l ->
  forall l1 q l2, l = (l1 ++ q :: l2)%list -> H (acc ++ l1)%list q l2.
Proof.
  revert acc. induction l as [|s l IH]; intros acc T l1 q l2 E.
  - destruct l1; discriminate E.
  - destruct T as [Hs Hl]. destruct l1 as [|s1 l1]; simpl in E.
    + injection E as -> ->. now rewrite app_nil_r.
    + injection E as -> ->.
      specialize (IH _ Hl l1 q l2 eq_refl).
      now rewrite <- app_assoc in IH.
Qed.

Lemma throughout_check (H : list step -> step -> list step -> Prop)
    (l : list step) :
  throughout_from [] H l -> throughout H l.
Proof. intros T l1 q l2 E. exact (throughout_from_sound H l [] T l1 q l2 E). Qed.

Lemma odd_length_of_rem {A} (l : list A) :
  (Z.rem (len l) 2 =? 0) = false -> Nat.Odd (length l).
Proof.
  rewrite len_rem_even. intros E.
  apply Nat.odd_spec. now rewrite <- Nat.negb_even, E.
Qed.

Ltac check_throughout :=
  apply throughout_check; cbn; split_all;
  try solve [ exact I | reflexivity | discriminate
            | eexists; reflexivity
            | intros; left; reflexivity
            | intros; right; reflexivity
            | intros [=] ].

(** X7 : in every run of [startMaster], the management service and the
    consensus service are built on the same peer list, the one resolved by
    [checkPeers], which has odd length and holds the own address; the
    management service gets the router just made and the options of
    [toMasterOption]; the consensus service gets the own address, the meta
    folder, the pulse and the topology of the management service just built. *)
Theorem services_get_resolved_peers (VERSION : string)
    (masterOption : MasterOptions) (masterWhiteList : list string)
    (tr : @trace masterE unit) :
  is_trace (startMaster VERSION masterOption masterWhiteList) tr ->
  throughout (fun l1 q _ => peers_flow masterOption masterWhiteList l1 q)
    (steps tr).
Proof.
  intros H.
  walk_trace H ltac:(
    check_throughout;
    first [ eapply odd_length_of_rem; eassumption | apply withSelf_In ]).
Qed.

Lemma services_get_resolved_peers_witness :
  throughout
    (fun l1 q _ => peers_flow (defaultOptions "/tmp") [] l1 q)
    (steps (run 64 cooperative (startMaster "1.44" (defaultOptions "/tmp") []))) /\
  existsb constructs_raft
    (steps (run 64 cooperative (startMaster "1.44" (defaultOptions "/tmp") [])))
  = true.
Proof.
  split; [|reflexivity].
  apply (services_get_resolved_peers "1.44" (defaultOptions "/tmp") []).
  apply run_is_trace.
Defined.

(** X8 : in every run of [startMaster], the consensus service set on the
    management service, the handler of the GET route /cluster/status and the
    services registered on the RPC server are the objects constructed earlier
    in that run: the one management service, the one consensus service, the
    one router and the one RPC server. *)
Theorem services_wired_together (VERSION : string)
    (masterOption : MasterOptions) (masterWhiteList : list string)
    (tr : @trace masterE unit) :
  is_trace (startMaster VERSION masterOption masterWhiteList) tr ->
  throughout (fun l1 q _ => wiring l1 q) (steps tr).
Proof.
  intros H.
  walk_trace H ltac:(check_throughout).
Qed.

Lemma services_wired_together_witness :
  throughout (fun l1 q _ => wiring l1 q)
    (steps (run 64 cooperative (startMaster "1.44" (defaultOptions "/tmp") []))) /\
  existsb registers
    (steps (run 64 cooperative (startMaster "1.44" (defaultOptions "/tmp") [])))
  = true.
Proof.
  split; [|reflexivity].
  apply (services_wired_together "1.44" (defaultOptions "/tmp") []).
  apply run_is_trace.
Defined.

(** X9 : in every run of [startMaster], the RPC server serves on the
    listener bound at the RPC address, the HTTP server serves on the listener
    bound at the management address with the router of the management service
    as its handler, and the keep-connected task runs on the client of the
    management service. *)
Theorem tasks_serve_their_listeners (VERSION : string)
    (masterOption : MasterOptions) (masterWhiteList : list string)
    (tr : @trace masterE unit) :
  is_trace (startMaster VERSION masterOption masterWhiteList) tr ->
  throughout (fun l1 q _ => serving masterOption l1 q) (steps tr).
Proof.
  intros H.
  walk_trace H ltac:(check_throughout).
Qed.

Lemma tasks_serve_their_listeners_witness :
  throughout (fun l1 q _ => serving (defaultOptions "/tmp") l1 q)
    (steps (run 64 cooperative (startMaster "1.44" (defaultOptions "/tmp") []))) /\
  existsb serves
    (steps (run 64 cooperative (startMaster "1.44" (defaultOptions "/tmp") [])))
  = true.
Proof.
  split; [|reflexivity].
  apply (tasks_serve_their_listeners "1.44" (defaultOptions "/tmp") []).
  apply run_is_trace.
Defined.

(** ** Failures during startMaster *)

(** X10 : in every run of [startMaster], when the bind of the management
    listener answers an error, the only thing that follows is the call of
    [glog.Fatalf] reporting that error as a master startup error: no
    consensus service is built and no second bind is tried. *)
Theorem management_bind_failure_is_fatal (VERSION : string)
    (masterOption : MasterOptions) (masterWhiteList : list string)
    (tr : @trace masterE unit) :
  is_trace (startMaster VERSION masterOption masterWhiteList) tr ->
  throughout management_bind_failure (steps tr).
Proof.
  intros H.
  walk_trace H ltac:(check_throughout).
Qed.

Lemma management_bind_failure_is_fatal_witness :
  throughout management_bind_failure
    (steps (run 64 (address_in_use "0.0.0.0:9333")
              (startMaster "1.44" (defaultOptions "/tmp") []))) /\
  steps (run 64 (address_in_use "0.0.0.0:9333")
           (startMaster "1.44" (defaultOptions "/tmp") []))
  = [Step NewRouter (Some (mkRouter 1));
     Step (NewMasterServer (mkRouter 1)
             (toMasterOption (defaultOptions "/tmp") []) ["localhost:9333"])
       (Some (mkMasterServer 1 (mkTopology 1) (mkMasterClient 1)));
     Step (Infof 0 "Start Seaweed Master %s at %s"
             [ArgString "1.44"; ArgString "0.0.0.0:9333"]) (Some tt);
     Step (NewListener "0.0.0.0:9333" 0)
       (Some (mkListener 0, Some "address already in use"));
     Step (Fatalf "Master startup error: %v"
             [ArgError "address already in use"]) None].
Proof.
  split; [|reflexivity].
  apply (management_bind_failure_is_fatal "1.44" (defaultOptions "/tmp") []).
  apply run_is_trace.
Defined.

(** X11 : in every run of [startMaster], when
    [weed_server.NewRaftServer] returns nil, the only thing that follows is
    the call of [glog.Fatalf] asking to verify that the meta folder is
    writable: nothing is set on the management service and the RPC listener
    is not bound. *)
Theorem raft_failure_is_fatal (VERSION : string)
    (masterOption : MasterOptions) (masterWhiteList : list string)
    (tr : @trace masterE unit) :
  is_trace (startMaster VERSION masterOption masterWhiteList) tr ->
  throughout (fun _ q l2 => raft_failure masterOption q l2) (steps tr).
Proof.
  intros H.
  walk_trace H ltac:(check_throughout).
Qed.

Lemma raft_failure_is_fatal_witness :
  throughout (fun _ q l2 => raft_failure (defaultOptions "/tmp") q l2)
    (steps (run 64 raft_unavailable
              (startMaster "1.44" (defaultOptions "/tmp") []))) /\
  bind_addrs
    (steps (run 64 raft_unavailable
              (startMaster "1.44" (defaultOptions "/tmp") [])))
  = ["0.0.0.0:9333"] /\
  existsb
    (is_fatal_with
       "please verify %s is writable, see https://github.com/chrislusf/seaweedfs/issues/717")
    (steps (run 64 raft_unavailable
              (startMaster "1.44" (defaultOptions "/tmp") [])))
  = true.
Proof.
  split; [|split; reflexivity].
  apply (raft_failure_is_fatal "1.44" (defaultOptions "/tmp") []).
  apply run_is_trace.
Defined.

(** X12 : in every run of [startMaster], when the bind of the RPC listener
    answers an error, the only thing that follows is the call of
    [glog.Fatalf] reporting the RPC port and that error: no RPC server is
    created and no task is started. *)
Theorem rpc_bind_failure_is_fatal (VERSION : string)
    (masterOption : MasterOptions) (masterWhiteList : list string)
    (tr : @trace masterE unit) :
  is_trace (startMaster VERSION masterOption masterWhiteList) tr ->
  throughout (rpc_bind_failure masterOption) (steps tr).
Proof.
  intros H.
  walk_trace H ltac:(check_throughout).
Qed.

Lemma rpc_bind_failure_is_fatal_witness :
  throughout (rpc_bind_failure (defaultOptions "/tmp"))
    (steps (run 64 (address_in_use "0.0.0.0:19333")
              (startMaster "1.44" (defaultOptions "/tmp") []))) /\
  started_tasks
    (steps (run 64 (address_in_use "0.0.0.0:19333")
              (startMaster "1.44" (defaultOptions "/tmp") [])))
  = [] /\
  existsb (is_fatal_with "master failed to listen on grpc port %d: %v")
    (steps (run 64 (address_in_use "0.0.0.0:19333")
              (startMaster "1.44" (defaultOptions "/tmp") [])))
  = true.
Proof.
  split; [|split; reflexivity].
  apply (rpc_bind_failure_is_fatal "1.44" (defaultOptions "/tmp") []).
  apply run_is_trace.
Defined.

Lemma even_length_of_rem {A} (l : list A) :
  (Z.rem (len l) 2 =? 0) = true -> Nat.Even (length l).
Proof. rewrite len_rem_even. apply Nat.even_spec. Qed.

(** X13 : when the resolved peer list has even length, a run of
    [startMaster] makes no call at all except [glog.Fatalf]: no router, no
    management service, no listener. *)
Theorem even_peers_stop_startMaster (VERSION : string)
    (masterOption : MasterOptions) (masterWhiteList : list string)
    (tr : @trace masterE unit) :
  Nat.Even
    (length
       (resolvedPeers (ip masterOption) (port masterOption)
          (peers masterOption))) ->
  is_trace (startMaster VERSION masterOption masterWhiteList) tr ->
  at_most (Step (Fatalf "Only odd number of masters are supported!" []) None)
    (steps tr).
Proof.
  intros E H.
  apply Nat.even_spec in E. rewrite <- len_rem_even in E.
  unfold resolvedPeers in E.
  walk_trace H ltac:(
    first [ congruence | left; reflexivity | right; reflexivity ]).
Qed.

Lemma even_peers_stop_startMaster_witness :
  at_most (Step (Fatalf "Only odd number of masters are supported!" []) None)
    (steps
       (run 64 cooperative
          (startMaster "1.44"
             (with_peers "10.0.0.1" "10.0.0.1:9333,10.0.0.2:9333"
                (defaultOptions "/tmp")) []))) /\
  ends_fatally
    (steps
       (run 64 cooperative
          (startMaster "1.44"
             (with_peers "10.0.0.1" "10.0.0.1:9333,10.0.0.2:9333"
                (defaultOptions "/tmp")) [])))
  = true.
Proof.
  split; [|reflexivity].
  apply (even_peers_stop_startMaster "1.44"
           (with_peers "10.0.0.1" "10.0.0.1:9333,10.0.0.2:9333"
              (defaultOptions "/tmp")) []).
  - exists 1%nat. reflexivity.
  - apply run_is_trace.
Defined.

(** ** More on the runs of runMaster *)

Ltac cause_side :=
  first
    [ reflexivity
    | match goal with
      | E : (_ >? _) = true |- _ > _ => apply Z.gtb_lt in E; lia
      | E : (_ >? _) = false |- _ <= _ =>
          rewrite Z.gtb_ltb in E; apply Z.ltb_ge in E; lia
      | E : (Z.rem _ 2 =? 0) = true |- Nat.Even _ =>
          unfold resolvedPeers; apply even_length_of_rem; exact E
      end ].

Ltac find_cause :=
  first [ solve [left; split_all; cause_side]
        | solve [split_all; cause_side]
        | right; find_cause ].

(** X14 : in every run of [runMaster] each fatal message stands for its own
    cause, and the checks come in a fixed order: the folder message only
    after the folder check answered an error; the size message only with a
    size above 30000 and a writable folder; the odd-masters message only with
    an even resolved peer list, a size within the limit and a writable
    folder; the startup message only after the management bind failed; the
    verify-folder message only after the consensus service came back nil with
    the management listener bound; the RPC message only after the RPC bind
    failed with the management listener bound. *)
Theorem fatal_messages_name_their_cause (VERSION : string) (flags : Flags)
    (tr : @trace masterE bool) :
  is_trace (runMaster VERSION flags) tr ->
  throughout (fun l1 q _ => fatal_cause flags l1 q) (steps tr).
Proof.
  intros H.
  walk_trace H ltac:(
    apply throughout_check; cbn; split_all; first [exact I | find_cause]).
Qed.

Lemma fatal_messages_name_their_cause_witness :
  throughout (fun l1 q _ => fatal_cause defaultFlags l1 q)
    (steps (run 64 readonly_folder (runMaster "1.44" defaultFlags))) /\
  ends_fatally (steps (run 64 readonly_folder (runMaster "1.44" defaultFlags)))
  = true.
Proof.
  split; [|reflexivity].
  apply (fatal_messages_name_their_cause "1.44" defaultFlags).
  apply run_is_trace.
Defined.

(** X15 : in every run of [runMaster], the folder whose writability is
    checked is the configured meta folder, and the management service and the
    consensus service are only built on a folder that the check has found
    writable: that same folder. *)
Theorem services_use_checked_folder (VERSION : string) (flags : Flags)
    (tr : @trace masterE bool) :
  is_trace (runMaster VERSION flags) tr ->
  throughout (fun l1 q _ => folder_flow flags l1 q) (steps tr).
Proof.
  intros H.
  walk_trace H ltac:(check_throughout).
Qed.

Lemma services_use_checked_folder_witness :
  throughout (fun l1 q _ => folder_flow defaultFlags l1 q)
    (steps (run 64 cooperative (runMaster "1.44" defaultFlags))) /\
  writable_folders (steps (run 64 cooperative (runMaster "1.44" defaultFlags)))
  = ["/tmp"].
Proof.
  split; [|reflexivity].
  apply (services_use_checked_folder "1.44" defaultFlags).
  apply run_is_trace.
Defined.


(** X17 : the flag defaults of [init] pass every configuration check of the
    bootstrap, whatever the temporary directory and the profile flags: the
    default size limit sits exactly on the ceiling and is accepted, the empty
    peer list resolves to the single peer localhost:9333, and the binds
    attempted are 0.0.0.0:9333 and then 0.0.0.0:19333. *)
Theorem defaults_pass_checks (VERSION tempDir cpuProfile memProfile : string)
    (tr : @trace masterE bool) :
  is_trace
    (runMaster VERSION
       {| m := defaultOptions tempDir;
          masterCpuProfile := cpuProfile;
          masterMemProfile := memProfile |}) tr ->
  existsb (is_fatal_with "volumeSizeLimitMB should be smaller than 30000")
    (steps tr) = false /\
  existsb (is_fatal_with "Only odd number of masters are supported!")
    (steps tr) = false /\
  Forall
    (fun s => match s with
              | Step (NewMasterServer _ _ ps) _ => ps = ["localhost:9333"]
              | _ => True
              end) (steps tr) /\
  exists n,
    bind_addrs (steps tr) = firstn n ["0.0.0.0:9333"; "0.0.0.0:19333"].
Proof.
  intros H.
  walk_trace H ltac:(
    split; [reflexivity
           |split; [reflexivity
                   |split; [cbn; repeat (apply Forall_cons; [first [exact I | reflexivity]|]); apply Forall_nil
                           |first [ exists 0%nat; reflexivity
                                  | exists 1%nat; reflexivity
                                  | exists 2%nat; reflexivity ]]]]).
Qed.

Lemma defaults_pass_checks_witness :
  bind_addrs (steps (run 64 cooperative (runMaster "1.44" defaultFlags)))
  = ["0.0.0.0:9333"; "0.0.0.0:19333"] /\
  existsb (is_fatal_with "volumeSizeLimitMB should be smaller than 30000")
    (steps (run 64 cooperative (runMaster "1.44" defaultFlags))) = false.
Proof.
  pose proof (defaults_pass_checks "1.44" "/tmp" "" ""
                (run 64 cooperative (runMaster "1.44" defaultFlags))
                (run_is_trace _ _ _)) as (A & _ & _ & _).
  split; [reflexivity | exact A].
Defined.

(** ** Progress against collaborators that answer *)

Lemma run_Vis {X R} (fuel : nat) (h : answers) (e : masterE X)
    (k : X -> itree masterE R) :
  run (S fuel) h (Vis e k)
  = match h _ e with
    | Some x => TEventResponse e x (run fuel h (k x))
    | None => TEventEnd e
    end.
Proof. reflexivity. Qed.

Lemma run_bind_Vis {X R S} (fuel : nat) (h : answers) (e : masterE X)
    (k : X -> itree masterE R) (k' : R -> itree masterE S) :
  run (Datatypes.S fuel) h (ITree.bind (Vis e k) k')
  = match h _ e with
    | Some x => TEventResponse e x (run fuel h (ITree.bind (k x) k'))
    | None => TEventEnd e
    end.
Proof. reflexivity. Qed.

Lemma run_bind_bind_Vis {X R S T} (fuel : nat) (h : answers) (e : masterE X)
    (k : X -> itree masterE R) (k1 : R -> itree masterE S)
    (k2 : S -> itree masterE T) :
  run (Datatypes.S fuel) h (ITree.bind (ITree.bind (Vis e k) k1) k2)
  = match h _ e with
    | Some x =>
        TEventResponse e x (run fuel h (ITree.bind (ITree.bind (k x) k1) k2))
    | None => TEventEnd e
    end.
Proof. reflexivity. Qed.

Lemma run_bind_Ret {R S} (fuel : nat) (h : answers) (r : R)
    (k : R -> itree masterE S) :
  run fuel h (ITree.bind (Ret r) k) = run fuel h (k r).
Proof. destruct fuel; reflexivity. Qed.

Lemma run_bind_bind_Ret {R S T} (fuel : nat) (h : answers) (r : R)
    (k : R -> itree masterE S) (k' : S -> itree masterE T) :
  run fuel h (ITree.bind (ITree.bind (Ret r) k) k')
  = run fuel h (ITree.bind (k r) k').
Proof. destruct fuel; reflexivity. Qed.

Lemma run_spin_bind {R S} (fuel : nat) (h : answers)
    (k : R -> itree masterE S) :
  run fuel h (ITree.bind ITree.spin k) = TEnd.
Proof. induction fuel as [|fuel IH]; [reflexivity | exact IH]. Qed.

Lemma settled_step {X R} (started : nat) (e : masterE X) (x : X)
    (tr : @trace masterE R) :
  is_go e = false -> is_fatal_event e = false ->
  settled started (steps tr) ->
  settled started (steps (TEventResponse e x tr)).
Proof. destruct e; try discriminate; intros _ _ H; exact H. Qed.

Lemma settled_go {R} (started : nat) (t : task) (tr : @trace masterE R) :
  settled (S started) (steps tr) ->
  settled started (steps (TEventResponse (Go t) tt tr)).
Proof.
  unfold settled. simpl. rewrite Nat.add_succ_r. exact (fun H => H).
Qed.

Lemma settled_fatal {R} (format : string) (args : list fmt_arg) :
  settled 0 (steps (@TEventEnd masterE R _ (Fatalf format args))).
Proof. left. split; reflexivity. Qed.

Lemma settled_blocked : settled 3 [].
Proof. right. split; reflexivity. Qed.

Ltac step_run h R :=
  cbv beta zeta;
  lazymatch goal with
  | |- settled _ (steps (run _ h (fatalf _ _))) =>
      unfold fatalf; step_run h R
  | |- settled _ (steps (run _ h (ITree.bind (fatalf _ _) _))) =>
      unfold fatalf; step_run h R
  | |- settled _ (steps (run _ h (ITree.bind (ITree.bind (fatalf _ _) _) _))) =>
      unfold fatalf; step_run h R
  | |- settled _ (steps (run _ h (Vis (Fatalf ?f ?a) _))) =>
      rewrite run_Vis; destruct (h void (Fatalf f a)) as [[]|];
      apply settled_fatal
  | |- settled _ (steps (run _ h (ITree.bind (Vis (Fatalf ?f ?a) _) _))) =>
      rewrite run_bind_Vis; destruct (h void (Fatalf f a)) as [[]|];
      apply settled_fatal
  | |- settled _
         (steps (run _ h (ITree.bind (ITree.bind (Vis (Fatalf ?f ?a) _) _) _))) =>
      rewrite run_bind_bind_Vis; destruct (h void (Fatalf f a)) as [[]|];
      apply settled_fatal
  | |- settled _ (steps (run _ h (ITree.bind (Vis (Go ?t) _) _))) =>
      let A := fresh "A" in
      rewrite run_bind_Vis; destruct (h unit (Go t)) as [[]|] eqn:A;
      [ apply settled_go; step_run h R
      | exfalso; exact (R unit (Go t) eq_refl A) ]
  | |- settled _ (steps (run _ h (ITree.bind (Vis ?e _) _))) =>
      let A := fresh "A" in
      rewrite run_bind_Vis; destruct (h _ e) eqn:A;
      [ apply settled_step; [reflexivity | reflexivity | step_run h R]
      | exfalso; exact (R _ e eq_refl A) ]
  | |- settled _ (steps (run _ h (Vis ?e _))) =>
      let A := fresh "A" in
      rewrite run_Vis; destruct (h _ e) eqn:A;
      [ apply settled_step; [reflexivity | reflexivity | step_run h R]
      | exfalso; exact (R _ e eq_refl A) ]
  | |- settled _ (steps (run _ h (ITree.bind (ITree.bind (Ret _) _) _))) =>
      rewrite run_bind_bind_Ret; step_run h R
  | |- settled _ (steps (run _ h (ITree.bind ITree.spin _))) =>
      rewrite run_spin_bind; apply settled_blocked
  | |- settled _
         (steps (run _ h (ITree.bind (ITree.bind (match ?x with _ => _ end) _) _))) =>
      destruct x; step_run h R
  | |- settled _ (steps (run _ h (ITree.bind (match ?x with _ => _ end) _))) =>
      destruct x; step_run h R
  | |- settled _ (steps (run _ h (match ?x with _ => _ end))) =>
      destruct x; step_run h R
  end.

Lemma runMaster_settles (VERSION : string) (flags : Flags) (h : answers) :
  responsive h ->
  settled 0 (steps (run 64 h (runMaster VERSION flags))).
Proof.
  intros R. unfold runMaster, startMaster, checkPeers.
  step_run h R.
Qed.

Lemma cooperative_responsive : responsive cooperative.
Proof. intros X e H. destruct e; simpl in *; discriminate. Qed.

(** X18 : against collaborators that answer every call, a run of
    [runMaster] never stops half way: within 64 steps it has either ended in
    [glog.Fatalf] without having started any task, or started all three
    tasks without any fatal exit. *)
Theorem bootstrap_progress (VERSION : string) (flags : Flags) (h : answers) :
  responsive h ->
  let l := steps (run 64 h (runMaster VERSION flags)) in
  (ends_fatally l = true /\ started_tasks l = []) \/
  (ends_fatally l = false /\ length (started_tasks l) = 3%nat).
Proof.
  intros R. cbv zeta.
  generalize (runMaster_settles VERSION flags h R).
  generalize (steps (run 64 h (runMaster VERSION flags))) as l.
  intros l [[E T]|[E T]].
  - left. split; [exact E|]. now destruct (started_tasks l).
  - right. split; [exact E | exact T].
Qed.

Lemma bootstrap_progress_witness :
  ends_fatally (steps (run 64 cooperative (runMaster "1.44" defaultFlags)))
  = false /\
  length
    (started_tasks (steps (run 64 cooperative (runMaster "1.44" defaultFlags))))
  = 3%nat.
Proof.
  destruct (bootstrap_progress "1.44" defaultFlags cooperative
              cooperative_responsive) as [[E _]|[E T]].
  - exfalso. revert E. vm_compute. discriminate.
  - split; [exact E | exact T].
Defined.

(** X19 : no run of [startMaster] retries anything: at most one router, one
    management service, one consensus service and one RPC server are
    obtained, at most two binds are attempted and at most three tasks are
    started. *)
Theorem nothing_is_retried (VERSION : string) (masterOption : MasterOptions)
    (masterWhiteList : list string) (tr : @trace masterE unit) :
  is_trace (startMaster VERSION masterOption masterWhiteList) tr ->
  (length (routers (steps tr)) <= 1)%nat /\
  (length (management_servers (steps tr)) <= 1)%nat /\
  (length (raft_servers (steps tr)) <= 1)%nat /\
  (length (grpc_servers (steps tr)) <= 1)%nat /\
  (length (bind_addrs (steps tr)) <= 2)%nat /\
  (length (started_tasks (steps tr)) <= 3)%nat.
Proof.
  intros H.
  walk_trace H ltac:(cbn; lia).
Qed.

Lemma nothing_is_retried_witness :
  (length
     (bind_addrs
        (steps (run 64 cooperative
                  (startMaster "1.44" (defaultOptions "/tmp") []))))
   <= 2)%nat /\
  length
    (bind_addrs
       (steps (run 64 cooperative
                 (startMaster "1.44" (defaultOptions "/tmp") []))))
  = 2%nat.
Proof.
  pose proof (nothing_is_retried "1.44" (defaultOptions "/tmp") []
                (run 64 cooperative
                   (startMaster "1.44" (defaultOptions "/tmp") []))
                (run_is_trace _ _ _)) as (_ & _ & _ & _ & B & _).
  split; [exact B | reflexivity].
Defined.

(** X20 : in every run of [runMaster], the two configuration files are
    loaded first, security then master, both as optional; the thread limit
    is set to exactly the number of CPUs the runtime has just reported; the
    profiles are set up from the two profile flags; and the folder check is
    the sixth call. *)
Theorem runtime_setup (VERSION : string) (flags : Flags)
    (tr : @trace masterE bool) :
  is_trace (runMaster VERSION flags) tr ->
  throughout (fun l1 q _ => setup_flow flags l1 q) (steps tr).
Proof.
  intros H.
  walk_trace H ltac:(
    apply throughout_check; cbn; split_all;
    try solve [ exact I | reflexivity
              | left; split; reflexivity
              | right; split; reflexivity
              | eexists [_; _]; reflexivity ]).
Qed.

Lemma runtime_setup_witness :
  throughout (fun l1 q _ => setup_flow defaultFlags l1 q)
    (steps (run 64 cooperative (runMaster "1.44" defaultFlags))).
Proof.
  apply (runtime_setup "1.44" defaultFlags). apply run_is_trace.
Defined.
